(** * Disease_Treatment_API: the extraction core of [app.py]

    A shallow embedding of the pure part of [app.py] (the text normalizer
    [clean_text], the dictionary builder [expand_terms], the span merger
    [merge_medication_entities], the record assembly loop of
    [extract_medications] and the bucketing of [extract_tests]) together with
    the properties the specification states about them.

    Text.  Both CSV files are decoded with [encoding='latin-1'], so every
    character the program handles is a code point below 256.  A Python [str]
    is therefore modelled by [string], one [ascii] per code point, and the
    methods [str.strip], [str.lower], [str.split] and the two regular
    expressions of [clean_text] are written out on that range.

    Collaborators.  The spaCy pipelines [nlp_med7] and [nlp_general] and the
    [PhraseMatcher] are outside the repository; they are parameters of the
    functions that call them. *)

From Stdlib Require Import NArith ZArith Ascii.
From stdpp Require Import base option list strings gmap sorting.

(** ** Python [str] on Latin-1 text *)

Module Py.

(** [ord(c)] *)
Definition ord (c : ascii) : N := N_of_ascii c.

Definition in_range (lo hi : N) (c : ascii) : bool :=
  ((lo <=? ord c) && (ord c <=? hi))%N.

(** [c.isspace()], which is also the class [\s] of a [str] pattern:
    U+0009..U+000D, U+001C..U+001F, U+0020, U+0085 and U+00A0 are the
    white-space code points below 256. *)
Definition isspace (c : ascii) : bool :=
  in_range 9 13 c || in_range 28 32 c || (ord c =? 133)%N || (ord c =? 160)%N.

(** The classes [[a-z]] and [[A-Z]] of a pattern compiled without flags. *)
Definition is_az (c : ascii) : bool := in_range 97 122 c.
Definition is_AZ (c : ascii) : bool := in_range 65 90 c.

(** [c.lower()]: A..Z, U+00C0..U+00D6 and U+00D8..U+00DE move up by 32;
    every other code point below 256 is its own lower case. *)
Definition lower_char (c : ascii) : ascii :=
  if in_range 65 90 c || in_range 192 214 c || in_range 216 222 c
  then ascii_of_N (ord c + 32)
  else c.

(** [s.lower()] *)
Fixpoint lower (s : string) : string :=
  match s with
  | "" => ""
  | String c r => String (lower_char c) (lower r)
  end.

(** [s.lstrip()] *)
Fixpoint lstrip (s : string) : string :=
  match s with
  | "" => ""
  | String c r => if isspace c then lstrip r else s
  end.

(** [s.rstrip()] *)
Fixpoint rstrip (s : string) : string :=
  match s with
  | "" => ""
  | String c r =>
      match rstrip r with
      | "" => if isspace c then "" else String c ""
      | r' => String c r'
      end
  end.

(** [s.strip()] *)
Definition strip (s : string) : string := rstrip (lstrip s).

(** [s.split(sep)] for a one-character separator: every occurrence of
    [sep] ends a piece, so the result has one piece more than [s] has
    separators, and [''.split(',')] is [['']]. *)
Fixpoint split (sep : ascii) (s : string) : list string :=
  match s with
  | "" => [""]
  | String c r =>
      if decide (c = sep) then "" :: split sep r
      else match split sep r with
           | p :: ps => String c p :: ps
           | [] => [String c ""]
           end
  end.

End Py.

(** ** [clean_text] *)

(** [re.sub(r'([a-z])([A-Z])', r'\1. \2', text)]: matches are found left to
    right and do not overlap; a match consumes both letters. *)
Fixpoint sub_lower_upper (text : string) : string :=
  match text with
  | "" => ""
  | String c rest =>
      match rest with
      | "" => String c ""
      | String d rest' =>
          if Py.is_az c && Py.is_AZ d
          then String c (String "." (String " " (String d (sub_lower_upper rest'))))
          else String c (sub_lower_upper rest)
      end
  end.

(** [re.sub(r'\s+', ' ', text)]: every maximal run of white space becomes one
    space.  [in_run] tells that the previous character belonged to a run whose
    replacement has been emitted already. *)
Fixpoint sub_spaces_from (in_run : bool) (text : string) : string :=
  match text with
  | "" => ""
  | String c rest =>
      if Py.isspace c
      then if in_run then sub_spaces_from true rest
           else String " " (sub_spaces_from true rest)
      else String c (sub_spaces_from false rest)
  end.

Definition sub_spaces (text : string) : string := sub_spaces_from false text.

Definition clean_text (text : string) : string :=
  let text := sub_lower_upper text in
  let text := sub_spaces text in
  Py.strip text.

(** ** [expand_terms] *)

(** The pieces one cell contributes: [str(cell).split(",")], each piece
    stripped, the empty ones left out. *)
Definition cell_terms (cell : string) : list string :=
  filter (λ term, term ≠ "") (Py.strip <$> Py.split "," cell).

(** [all_terms] when the loop ends.  A cell is [None] when it is null, which
    [series.dropna()] leaves out, and [Some s] with [s = str(cell)]
    otherwise. *)
Definition all_terms (series : list (option string)) : list string :=
  omap id series ≫= cell_terms.

(** [sorted(set(all_terms))].  The iteration order of a Python set is not
    specified, and neither is the order of [elements]; the sort, by code
    points, makes the result independent of it. *)
Definition expand_terms (series : list (option string)) : list string :=
  merge_sort String.le (elements (list_to_set (all_terms series) : gset string)).

(** ** [merge_medication_entities] *)

(** An entity of [doc.ents]: its label, its text and its token boundaries. *)
Record Span := mkSpan {
  label_ : string;
  text : string;
  start : Z;
  end_ : Z
}.

(** The loop [for i, ent in enumerate(doc.ents)]: [ents] is the whole of
    [doc.ents], [todo] what [enumerate] has not yielded yet and [i] the index
    of its head.  [ents !! (i + 1)] is [None] exactly when
    [i + 1 < len(doc.ents)] fails. *)
Fixpoint merge_loop (ents : list Span) (i : nat) (todo : list Span)
    (skip_next : bool) (merged : list (string * string)) : list (string * string) :=
  match todo with
  | [] => merged
  | ent :: todo' =>
      if skip_next then merge_loop ents (i + 1) todo' false merged
      else
        match ents !! (i + 1) with
        | Some next =>
            if bool_decide (start next = end_ ent)
            then
              let merged_text := text ent +:+ " " +:+ text next in
              merge_loop ents (i + 1) todo' true (merged ++ [(label_ ent, merged_text)])
            else merge_loop ents (i + 1) todo' false (merged ++ [(label_ ent, text ent)])
        | None => merge_loop ents (i + 1) todo' false (merged ++ [(label_ ent, text ent)])
        end
  end.

Definition merge_medication_entities (doc : list Span) : list (string * string) :=
  merge_loop doc 0 doc false [].

(** The adjacency merge pass in the words of the specification: scan left to
    right; two adjacent spans give one entity and both are consumed; any
    other span passes through. *)
Fixpoint adjacency_merge_pass (spans : list Span) : list (string * string) :=
  match spans with
  | [] => []
  | s :: rest =>
      match rest with
      | [] => [(label_ s, text s)]
      | n :: rest' =>
          if bool_decide (start n = end_ s)
          then (label_ s, text s +:+ " " +:+ text n) :: adjacency_merge_pass rest'
          else (label_ s, text s) :: adjacency_merge_pass rest
      end
  end.

(** ** [extract_medications] *)

(** What a call can raise: [UnboundLocalError] for a local name read before
    any assignment, and the [AttributeError] of the [.str] accessor of a
    column that holds no text. *)
Inductive exn : Type :=
  | UnboundLocalError (name : string)
  | AttributeError.

(** The outcome of a call: a returned value or a raised exception. *)
Inductive result (A : Type) : Type :=
  | Ok (a : A)
  | Raise (e : exn).
Arguments Ok {A} a.
Arguments Raise {A} e.

(** Sequencing: an exception raised by the first computation ends the call. *)
#[global] Instance result_bind : MBind result :=
  λ A B k r, match r with
             | Ok a => k a
             | Raise e => Raise e
             end.

(** A local name of a function: not assigned yet, or bound to a value. *)
Inductive local (A : Type) : Type :=
  | Unbound
  | Bound (v : A).
Arguments Unbound {A}.
Arguments Bound {A} v.

(** The state of the assembly loop.  A medication record is a [dict] from
    field names to texts.  [current_med], once assigned, is one of the dicts
    stored in [medications] (the same object, so a write through it is a
    write into the list): it is kept as the index of that dict, under
    [Some]; [Bound None] stands for the value [None], which the test
    [current_med is not None] looks for.  The index is always that of a
    record of the list ([wf_current] below), so that [alter], which leaves a
    list alone when the index is past its end, is the write. *)
Record assembly := mkAssembly {
  medications : list (gmap string string);
  current_med : local (option nat)
}.

Definition INVALID_DRUGS : gset string := {[ "generic" ]}.

Definition ATTRIBUTE_LABELS : list string :=
  ["STRENGTH"; "FORM"; "DOSAGE"; "ROUTE"; "FREQUENCY"; "DURATION"].

(** [m.get("drug", "")] *)
Definition get_drug (m : gmap string string) : string := default "" (m !! "drug").

(** [next((m for m in medications if m.get("drug", "").lower() ==
    drug_name.lower()), None)], with the position of the dict found. *)
Definition find_existing (meds : list (gmap string string)) (drug_name : string)
    : option (nat * gmap string string) :=
  list_find (λ m, Py.lower (get_drug m) = Py.lower drug_name) meds.

Definition append_new (st : assembly) (drug_name : string) : assembly :=
  {| medications := medications st ++ [ {[ "drug" := drug_name ]} ];
     current_med := Bound (Some (length (medications st))) |}.

(** One iteration of [for label, ent_text in ents]. *)
Definition step (st : assembly) (ent : string * string) : result assembly :=
  let '(label, ent_text) := ent in
  if decide (label = "DRUG") then
    let drug_name := Py.strip ent_text in
    if decide (Py.lower drug_name ∈ INVALID_DRUGS) then Ok st
    else
      match find_existing (medications st) drug_name with
      | Some (i, existing) =>
          (* [if existing:] a dict is true when it is not empty *)
          if decide (existing = ∅) then Ok (append_new st drug_name)
          else Ok {| medications := medications st; current_med := Bound (Some i) |}
      | None => Ok (append_new st drug_name)
      end
  else if decide (label ∈ ATTRIBUTE_LABELS) then
    match current_med st with
    | Unbound => Raise (UnboundLocalError "current_med")
    | Bound None => Ok st
    | Bound (Some i) =>
        Ok {| medications := alter (insert (Py.lower label) ent_text) i (medications st);
              current_med := Bound (Some i) |}
    end
  else Ok st.

Fixpoint assemble (st : assembly) (ents : list (string * string)) : result assembly :=
  match ents with
  | [] => Ok st
  | ent :: ents' => st' ← step st ent; assemble st' ents'
  end.

(** The state before the loop: [medications = []], and no assignment to
    [current_med]. *)
Definition initial : assembly :=
  {| medications := []; current_med := Unbound |}.

(** [medications or None] *)
Definition or_None {A : Type} (l : list A) : option (list A) :=
  match l with
  | [] => None
  | _ => Some l
  end.

(** The body of [extract_medications] below the call of the merger. *)
Definition medications_of (ents : list (string * string))
    : result (option (list (gmap string string))) :=
  st ← assemble initial ents; Ok (or_None (medications st)).

Section Labeler.

(** [nlp_med7]: from the cleaned text to [doc.ents]. *)
Variable nlp_med7 : string → list Span.

Definition extract_medications (text : string)
    : result (option (list (gmap string string))) :=
  let cleaned_text := clean_text text in
  let doc_med := nlp_med7 cleaned_text in
  let ents := merge_medication_entities doc_med in
  medications_of ents.

End Labeler.

(** ** [extract_tests] *)

(** The loop over [matches]: a match is kept here as its label
    ([nlp_general.vocab.strings[match_id]]) and its text
    ([doc[start:end].text]). *)
Fixpoint bucket (matches : list (string * string)) (patho radio : list string)
    : list string * list string :=
  match matches with
  | [] => (patho, radio)
  | (label, span_text) :: matches' =>
      if decide (label = "PATHOLOGY TEST") then bucket matches' (patho ++ [span_text]) radio
      else if decide (label = "RADIOLOGY TEST") then bucket matches' patho (radio ++ [span_text])
      else bucket matches' patho radio
  end.

(** The patterns the matcher holds when it is called: a key is added only
    for a term list that is not empty. *)
Definition added_patterns (pathology_terms radiology_terms : list string)
    : list (string * list string) :=
  (match pathology_terms with [] => [] | _ => [("PATHOLOGY TEST", pathology_terms)] end)
  ++ (match radiology_terms with [] => [] | _ => [("RADIOLOGY TEST", radiology_terms)] end).

Section Matcher.

(** The [PhraseMatcher] with the tokenizer of [nlp_general]: from the
    patterns added and the cleaned text to the matches. *)
Variable phrase_matcher : list (string * list string) → string → list (string * string).

Definition extract_tests (text : string) (pathology_terms radiology_terms : list string)
    : option (list string) * option (list string) :=
  let patterns := added_patterns pathology_terms radiology_terms in
  let cleaned_text := clean_text text in
  let matches := phrase_matcher patterns cleaned_text in
  let '(patho, radio) := bucket matches [] [] in
  (or_None (elements (list_to_set patho : gset string)),
   or_None (elements (list_to_set radio : gset string))).

End Matcher.

(** ** The endpoint [/extract_get] *)

(** A row of [df_disease]: its cells in the columns [disease] and [text],
    which the table is taken to have.  A cell is [None] when it is null
    (pandas reads an empty field as NaN) and [Some s] when it holds the
    text [s]; the columns are taken to hold texts and nulls only. *)
Record DiseaseRow := mkRow {
  disease_cell : option string;
  text_cell : option string
}.

(** [str(cell)]: a null cell is the float NaN, which prints as [nan]. *)
Definition str_cell (cell : option string) : string := default "nan" cell.

(** What a view returns: [jsonify({"error": error}), status], or
    [jsonify(result)] with its four fields. *)
Inductive response : Type :=
  | ErrorResponse (error : string) (status : Z)
  | ResultResponse (disease_name : string)
      (medications : option (list (gmap string string)))
      (pathology_tests radiology_tests : option (list string)).

(** The test of the mask [df_disease["disease"].str.lower() == disease_name]:
    the lower case of a null cell is null, which equals no text. *)
Definition row_matches (disease_name : string) (row : DiseaseRow) : Prop :=
  Py.lower <$> disease_cell row = Some disease_name.

#[global] Instance row_matches_dec disease_name row :
  Decision (row_matches disease_name row).
Proof. unfold row_matches. apply _. Defined.

(** When [df_disease["disease"].str] raises.  A column read from a file with
    rows but with no text in any of its cells is a column of NaN, of dtype
    [float64], which has no [.str] accessor; a table without rows has
    columns of dtype [object], for which the accessor is there. *)
Definition no_str_accessor (df_disease : list DiseaseRow) : Prop :=
  df_disease ≠ [] ∧ Forall (λ row, disease_cell row = None) df_disease.

#[global] Instance no_str_accessor_dec df_disease : Decision (no_str_accessor df_disease).
Proof. unfold no_str_accessor. apply _. Defined.

Section Endpoint.

Variable nlp_med7 : string → list Span.
Variable phrase_matcher : list (string * list string) → string → list (string * string).

(** The table of the notes, and the two columns of [df_tests]. *)
Variable df_disease : list DiseaseRow.
Variable pathology_column radiology_column : list (option string).

(** [extract_info_get], with [arg] the value of the query parameter
    [disease_name], [None] when the query has none.  The globals
    [pathology_terms] and [radiology_terms] are [expand_terms] of the two
    columns.  An exception of the [.str] accessor or of
    [extract_medications] leaves the view. *)
Definition extract_info_get (arg : option string) : result response :=
  let disease_name := Py.lower (Py.strip (default "" arg)) in
  if decide (disease_name = "") then
    Ok (ErrorResponse "Please provide a disease_name using ?disease_name=<name>" 400)
  else if decide (no_str_accessor df_disease) then Raise AttributeError
  else
    let row := filter (row_matches disease_name) df_disease in
    match row with
    | [] => Ok (ErrorResponse ("Disease '" +:+ disease_name +:+ "' not found") 404)
    | row :: _ =>
        let clinical_text := str_cell (text_cell row) in
        medications ← extract_medications nlp_med7 clinical_text;
        let '(patho_tests, radio_tests) :=
          extract_tests phrase_matcher clinical_text
            (expand_terms pathology_column) (expand_terms radiology_column) in
        Ok (ResultResponse disease_name medications patho_tests radio_tests)
    end.

End Endpoint.

(** ** Shapes of a text *)

(** Two consecutive space characters somewhere in [s]. *)
Definition has_double_space (s : string) : Prop :=
  ∃ s1 s2, s = s1 +:+ "  " +:+ s2.

(** [s] begins with a white-space character. *)
Definition has_leading_space (s : string) : Prop :=
  ∃ c r, s = String c r ∧ Py.isspace c = true.

(** [s] ends with a white-space character. *)
Definition has_trailing_space (s : string) : Prop :=
  ∃ r c, s = r +:+ String c "" ∧ Py.isspace c = true.

(** The first character, if any, is not white space. *)
Definition starts_clean (s : string) : Prop :=
  match s with
  | "" => True
  | String c _ => Py.isspace c = false
  end.

(** Every white-space character is a space, and what follows it is not
    white space. *)
Fixpoint single_spaced (s : string) : Prop :=
  match s with
  | "" => True
  | String c r =>
      (Py.isspace c = true → c = " "%char ∧ starts_clean r) ∧ single_spaced r
  end.

(** ** Shapes of a record list *)

(** The [drug] entries of the records, in order. *)
Definition drug_fields (meds : list (gmap string string)) : list (option string) :=
  (λ m, m !! "drug") <$> meds.

(** The drug names of the records, in lower case. *)
Definition lowered_drugs (meds : list (gmap string string)) : list string :=
  (λ m, Py.lower (get_drug m)) <$> meds.

(** The name, in lower case, under which an entity opens or resumes a
    record: the entity is labelled DRUG and its stripped text is not in the
    block list. *)
Definition valid_drug (ent : string * string) : option string :=
  if decide (ent.1 = "DRUG") then
    if decide (Py.lower (Py.strip ent.2) ∈ INVALID_DRUGS) then None
    else Some (Py.lower (Py.strip ent.2))
  else None.

Definition valid_drugs (ents : list (string * string)) : list string :=
  omap valid_drug ents.

(** What holds of the state at every iteration: each record has a [drug]
    entry, no two records have the same name up to case, no name is in the
    block list, and [current_med], once bound, is a record of the list. *)
Record wf_assembly (st : assembly) : Prop := mkWf {
  wf_drug : Forall is_Some (drug_fields (medications st));
  wf_nodup : NoDup (lowered_drugs (medications st));
  wf_valid : Forall (λ d, d ∉ INVALID_DRUGS) (lowered_drugs (medications st));
  wf_current : ∀ o, current_med st = Bound o →
                 ∃ i, o = Some i ∧ i < length (medications st)
}.

(** The name, in lower case, of the record [current_med] is bound to. *)
Definition current_name (st : assembly) : option string :=
  match current_med st with
  | Bound (Some i) => lowered_drugs (medications st) !! i
  | _ => None
  end.

(** A labeler that answers with the given spans whatever the text is: it
    serves to run [extract_medications] on a chosen sequence of spans. *)
Definition labeler_of (spans : list Span) : string → list Span := λ _, spans.

(** ** Shapes of a match list *)

(** The texts of the matches that carry [label], in order. *)
Definition labelled (label : string) (matches : list (string * string)) : list string :=
  snd <$> filter (λ m, m.1 = label) matches.

(** A small matcher to run [extract_tests] with: it reports a word of the
    text under a key when the word is, up to case, one of the terms added
    under that key. *)
Definition word_matcher (patterns : list (string * list string)) (cleaned_text : string)
    : list (string * string) :=
  String.words cleaned_text ≫= λ word : string,
    omap (λ pattern : string * list string,
            if decide (Py.lower word ∈ Py.lower <$> pattern.2)
            then Some (pattern.1, word) else None) patterns.

(** ** Further shapes of a text *)

(** Every character of [s] is white space. *)
Fixpoint blank (s : string) : bool :=
  match s with
  | "" => true
  | String c r => Py.isspace c && blank r
  end.

(** No character of the class [[a-z]] is followed at once by one of the
    class [[A-Z]]. *)
Fixpoint no_case_pair (s : string) : Prop :=
  match s with
  | "" => True
  | String c r =>
      match r with
      | "" => True
      | String d _ => Py.is_az c && Py.is_AZ d = false
      end ∧ no_case_pair r
  end.

(** The character [c] occurs in [s]. *)
Fixpoint occurs (c : ascii) (s : string) : Prop :=
  match s with
  | "" => False
  | String d r => c = d ∨ occurs c r
  end.

(** ** Shapes of a span list *)

(** No span starts where the span before it ends. *)
Fixpoint no_adjacent (spans : list Span) : Prop :=
  match spans with
  | [] => True
  | s :: rest =>
      match rest with
      | [] => True
      | n :: _ => start n ≠ end_ s
      end ∧ no_adjacent rest
  end.

(** [sep.join(l)] *)
Fixpoint join (sep : string) (l : list string) : string :=
  match l with
  | [] => ""
  | x :: rest =>
      match rest with
      | [] => x
      | _ => x +:+ sep +:+ join sep rest
      end
  end.

(** ** First mentions *)

(** The stripped texts of the valid DRUG entities whose name, up to case, is
    not in [seen] and is the name of no earlier valid DRUG entity. *)
Fixpoint first_mentions_from (seen : list string) (ents : list (string * string))
    : list string :=
  match ents with
  | [] => []
  | ent :: ents' =>
      match valid_drug ent with
      | Some x =>
          if decide (x ∈ seen) then first_mentions_from seen ents'
          else Py.strip ent.2 :: first_mentions_from (x :: seen) ents'
      | None => first_mentions_from seen ents'
      end
  end.

Definition first_mentions (ents : list (string * string)) : list string :=
  first_mentions_from [] ents.

(** The text of the entity two adjacent spans are merged into. *)
Definition merged_text_of (s n : Span) : string := text s +:+ " " +:+ text n.

(** * Properties *)

(** ** The normalizer *)

Example clean_text_wordNext : clean_text "wordNext" = "word. Next".
Proof. reflexivity. Qed.

Example clean_text_runs :
  clean_text (String "009" "  a " +:+ String "010" (String "013" " bC  ")) = "a b. C".
Proof. reflexivity. Qed.

(** The shapes the normalizer removes do occur in texts. *)
Example shapes_occur :
  has_double_space "a  b" ∧ has_leading_space " a"
  ∧ has_trailing_space (String "a" (String "010" "")).
Proof.
  split_and!.
  - by exists "a", "b".
  - by exists " "%char, "a".
  - by exists "a", "010"%char.
Qed.

Section Normalizer.

Local Lemma app_cons c s1 s2 : String c s1 +:+ s2 = String c (s1 +:+ s2).
Proof. reflexivity. Qed.

Lemma sub_spaces_from_shape text :
  single_spaced (sub_spaces_from false text)
  ∧ single_spaced (sub_spaces_from true text)
  ∧ starts_clean (sub_spaces_from true text).
Proof.
  induction text as [|c rest (IHf & IHt & IHs)]; simpl; [done|].
  destruct (Py.isspace c) eqn:Hc; simpl.
  - repeat split; auto.
  - rewrite Hc. repeat split; auto; congruence.
Qed.

Lemma single_spaced_lstrip s : single_spaced s → single_spaced (Py.lstrip s).
Proof.
  induction s as [|c r IH]; simpl; [done|].
  intros [Hc Hr]. destruct (Py.isspace c) eqn:Hsp; simpl; auto.
  split; [congruence|done].
Qed.

Lemma lstrip_starts_clean s : starts_clean (Py.lstrip s).
Proof.
  induction s as [|c r IH]; simpl; [done|].
  destruct (Py.isspace c) eqn:Hc; simpl; auto.
Qed.

(** [rstrip] keeps the first character of whatever it keeps. *)
Lemma rstrip_head c r :
  Py.rstrip (String c r) = "" ∨ ∃ r', Py.rstrip (String c r) = String c r'.
Proof. simpl. destruct (Py.rstrip r); [destruct (Py.isspace c)|]; eauto. Qed.

Lemma starts_clean_rstrip s : starts_clean s → starts_clean (Py.rstrip s).
Proof.
  destruct s as [|c r]; [done|]. intros Hc.
  destruct (rstrip_head c r) as [->|[r' ->]]; done.
Qed.

Lemma single_spaced_rstrip s : single_spaced s → single_spaced (Py.rstrip s).
Proof.
  induction s as [|c r IH]; [done|].
  intros [Hc Hr]. specialize (IH Hr). simpl.
  destruct (Py.rstrip r) as [|d r'] eqn:Hrs.
  - destruct (Py.isspace c) eqn:Hsp; simpl; [done|]. split; [congruence|done].
  - split; [|done]. intros Hsp. destruct (Hc Hsp) as [-> Hclean]. split; [done|].
    destruct r as [|d0 r0]; [done|].
    destruct (rstrip_head d0 r0) as [E|[r'' E]]; rewrite E in Hrs; [done|].
    by simplify_eq.
Qed.

Lemma rstrip_no_trailing_space s : ¬ has_trailing_space (Py.rstrip s).
Proof.
  intros (r & c & Heq & Hc). revert r Heq.
  induction s as [|d s IH]; intros r Heq.
  - destruct r; done.
  - simpl in Heq. destruct (Py.rstrip s) as [|e s'] eqn:Hrs.
    + destruct (Py.isspace d) eqn:Hd.
      * destruct r; done.
      * destruct r as [|x r].
        -- change (String d "" = String c "") in Heq. congruence.
        -- rewrite app_cons in Heq. injection Heq as _ Heq. destruct r; done.
    + destruct r as [|x r]; [done|].
      rewrite app_cons in Heq. injection Heq as -> Heq. by eapply IH.
Qed.

Lemma single_spaced_no_double s : single_spaced s → ¬ has_double_space s.
Proof.
  intros Hs (s1 & s2 & ->). induction s1 as [|c s1 IH].
  - destruct Hs as [Hc _]. destruct (Hc eq_refl) as [_ Hclean]. done.
  - rewrite app_cons in Hs. destruct Hs as [_ Hs]. auto.
Qed.

(** One pass already gives a text with single spaces only and no white
    space at either end. *)
Lemma clean_text_shape text :
  single_spaced (clean_text text)
  ∧ ¬ has_leading_space (clean_text text)
  ∧ ¬ has_trailing_space (clean_text text).
Proof.
  unfold clean_text, Py.strip, sub_spaces.
  set (t := sub_spaces_from false (sub_lower_upper text)).
  assert (single_spaced t) as Ht by apply sub_spaces_from_shape.
  split; [|split].
  - by apply single_spaced_rstrip, single_spaced_lstrip.
  - intros (c & r & Heq & Hc).
    pose proof (starts_clean_rstrip _ (lstrip_starts_clean t)) as Hclean.
    rewrite Heq in Hclean. simpl in Hclean. congruence.
  - apply rstrip_no_trailing_space.
Qed.

End Normalizer.

(** C9. For every text [t], [clean_text (clean_text t)] holds no two
    consecutive space characters and neither begins nor ends with a
    white-space character. *)
Theorem clean_text_twice_no_double_space_trimmed (t : string) :
  ¬ has_double_space (clean_text (clean_text t))
  ∧ ¬ has_leading_space (clean_text (clean_text t))
  ∧ ¬ has_trailing_space (clean_text (clean_text t)).
Proof.
  destruct (clean_text_shape (clean_text t)) as (Hs & Hl & Hr).
  auto using single_spaced_no_double.
Qed.

(** ** The adjacency merge pass *)

Example merge_Tab_let :
  merge_medication_entities [mkSpan "DRUG" "Tab" 0 1; mkSpan "DRUG" "let" 1 2]
  = [("DRUG", "Tab let")].
Proof. reflexivity. Qed.

(** Three spans in a row: the third one stays alone. *)
Example merge_single_level :
  merge_medication_entities
    [mkSpan "DRUG" "a" 0 1; mkSpan "FORM" "b" 1 2; mkSpan "ROUTE" "c" 2 3]
  = [("DRUG", "a b"); ("ROUTE", "c")].
Proof. reflexivity. Qed.

Section Merger.

Variable ents : list Span.

(** The loop, entered at index [i] with or without a pending skip, adds to
    [merged] what the pass of the specification yields on the spans left. *)
Lemma merge_loop_pass todo :
  ∀ i merged, drop i ents = todo →
    merge_loop ents i todo false merged = merged ++ adjacency_merge_pass todo
    ∧ merge_loop ents i todo true merged = merged ++ adjacency_merge_pass (tail todo).
Proof.
  induction todo as [|ent todo' IH]; intros i merged Hdrop.
  { simpl. by rewrite app_nil_r. }
  assert (ents !! i = Some ent) as Hi.
  { pose proof (lookup_drop ents i 0) as H0.
    rewrite Hdrop, Nat.add_0_r in H0. done. }
  assert (drop (i + 1) ents = todo') as Hdrop'.
  { apply drop_S in Hi. rewrite Hdrop in Hi.
    replace (i + 1) with (S i) by lia. congruence. }
  destruct (IH (i + 1)) with (merged := merged) as [IHf _]; [done|].
  split; [|exact IHf].
  assert (ents !! (i + 1) = head todo') as Hnext.
  { pose proof (lookup_drop ents (i + 1) 0) as H0.
    rewrite Hdrop', Nat.add_0_r in H0. rewrite <-H0. by destruct todo'. }
  cbn [merge_loop]. rewrite Hnext.
  destruct todo' as [|next rest]; cbn [head].
  - cbn [merge_loop adjacency_merge_pass]. done.
  - cbn [adjacency_merge_pass]. case_bool_decide.
    + destruct (IH (i + 1) (merged ++ [(label_ ent, text ent +:+ " " +:+ text next)]) Hdrop')
        as [_ ->]. cbn [tail]. by rewrite <-app_assoc.
    + destruct (IH (i + 1) (merged ++ [(label_ ent, text ent)]) Hdrop') as [-> _].
      by rewrite <-app_assoc.
Qed.

End Merger.

Lemma merge_medication_entities_pass doc :
  merge_medication_entities doc = adjacency_merge_pass doc.
Proof.
  unfold merge_medication_entities.
  by destruct (merge_loop_pass doc doc 0 [] eq_refl) as [-> _].
Qed.

(** C6. The merger is the left-to-right adjacency pass of the specification:
    when the next span starts where this one ends, one entity with this
    span's label and the two texts around a single space is emitted, the
    next span is skipped and the scan goes on after it, so that the merged
    entity never takes in a third span; any other span is emitted as it
    is. *)
Theorem merge_medication_entities_adjacency :
  (∀ doc, merge_medication_entities doc = adjacency_merge_pass doc)
  ∧ merge_medication_entities [] = []
  ∧ (∀ s, merge_medication_entities [s] = [(label_ s, text s)])
  ∧ (∀ s n rest, start n = end_ s →
       merge_medication_entities (s :: n :: rest)
       = (label_ s, text s +:+ " " +:+ text n) :: merge_medication_entities rest)
  ∧ (∀ s n rest, start n ≠ end_ s →
       merge_medication_entities (s :: n :: rest)
       = (label_ s, text s) :: merge_medication_entities (n :: rest)).
Proof.
  split_and!; [apply merge_medication_entities_pass|done|done|..];
    intros s n rest Hadj; rewrite !merge_medication_entities_pass;
    cbn [adjacency_merge_pass]; by case_bool_decide.
Qed.

(** ** The term dictionary *)

Example expand_terms_duplicates :
  expand_terms [Some "MRI , MRI"; None; Some ",, MRI,"] = ["MRI"].
Proof. vm_compute. reflexivity. Qed.

Section Dictionary.

(** [split] never yields the empty list. *)
Lemma split_not_nil sep s : Py.split sep s ≠ [].
Proof.
  destruct s as [|c r]; simpl; [done|].
  case_decide; [done|]. by destruct (Py.split sep r).
Qed.

(** The pieces, put back around the separator, are the cell. *)
Lemma split_join sep s :
  foldr (λ piece acc, match acc with
                      | None => Some piece
                      | Some t => Some (piece +:+ String sep t)
                      end) None (Py.split sep s) = Some s.
Proof.
  induction s as [|c r IH]; [done|]. simpl.
  case_decide as Hc.
  - simpl. rewrite IH. by subst.
  - pose proof (split_not_nil sep r) as Hne.
    destruct (Py.split sep r) as [|p ps]; [done|].
    simpl in *. destruct (foldr _ None ps); by simplify_eq.
Qed.

Lemma elem_of_all_terms series term :
  term ∈ all_terms series ↔
    ∃ cell piece, Some cell ∈ series ∧ piece ∈ Py.split "," cell
                  ∧ term = Py.strip piece ∧ term ≠ "".
Proof.
  unfold all_terms, cell_terms. rewrite list_elem_of_bind. split.
  - intros (cell & Hterm & Hcell).
    apply list_elem_of_omap in Hcell as ([c|] & Hin & Heq); simplify_eq/=.
    apply list_elem_of_filter in Hterm as [Hne Hterm].
    apply list_elem_of_fmap in Hterm as (piece & -> & Hpiece). eauto 10.
  - intros (cell & piece & Hin & Hpiece & -> & Hne).
    exists cell. split.
    + apply list_elem_of_filter. split; [done|]. by apply list_elem_of_fmap_2.
    + apply list_elem_of_omap. by exists (Some cell).
Qed.

Lemma expand_terms_Permutation series :
  expand_terms series ≡ₚ elements (list_to_set (all_terms series) : gset string).
Proof. apply merge_sort_Permutation. Qed.

End Dictionary.

(** C3, as the code has it.  The builder splits every non-null cell on
    commas, strips each piece, leaves out the empty ones, and returns what
    is left without repetition and in ascending order; two terms that differ
    in case only are different terms, and on the rows ["CBC, cbc ,Xray"] and
    ["MRI"] the result is CBC, MRI, Xray, cbc. *)
Theorem expand_terms_sorted_distinct :
  (∀ series,
     Sorted String.le (expand_terms series)
     ∧ NoDup (expand_terms series)
     ∧ ∀ term, term ∈ expand_terms series ↔
         ∃ cell piece, Some cell ∈ series ∧ piece ∈ Py.split "," cell
                       ∧ term = Py.strip piece ∧ term ≠ "")
  ∧ expand_terms [Some "CBC, cbc ,Xray"; Some "MRI"] = ["CBC"; "MRI"; "Xray"; "cbc"].
Proof.
  split; [|vm_compute; reflexivity].
  intros series. split_and!.
  - apply (Sorted_merge_sort String.le).
  - rewrite expand_terms_Permutation. apply NoDup_elements.
  - intros term. rewrite expand_terms_Permutation, elem_of_elements,
      elem_of_list_to_set. apply elem_of_all_terms.
Qed.

(** C3, as the specification words its example: the result on those rows is
    not the three terms CBC, MRI, Xray. *)
Lemma expand_terms_keeps_case_variants :
  expand_terms [Some "CBC, cbc ,Xray"; Some "MRI"] ≠ ["CBC"; "MRI"; "Xray"].
Proof. vm_compute. discriminate. Qed.

(** ** The record assembly loop *)

Section Assembly.

Implicit Types (st : assembly) (meds : list (gmap string string)).
Implicit Types (ent : string * string) (ents : list (string * string)).

Lemma lowered_drugs_fields meds :
  lowered_drugs meds = (λ o, Py.lower (default "" o)) <$> drug_fields meds.
Proof. unfold lowered_drugs, drug_fields. by rewrite <-list_fmap_compose. Qed.

(** The key an attribute is stored under is never [drug]. *)
Lemma attribute_key_not_drug label :
  label ∈ ATTRIBUTE_LABELS → Py.lower label ≠ "drug".
Proof.
  unfold ATTRIBUTE_LABELS. intros Hin.
  repeat (apply elem_of_cons in Hin as [->|Hin]; [vm_compute; discriminate|]).
  by apply elem_of_nil in Hin.
Qed.

Lemma attribute_not_DRUG label : label ∈ ATTRIBUTE_LABELS → label ≠ "DRUG".
Proof.
  unfold ATTRIBUTE_LABELS. intros Hin.
  repeat (apply elem_of_cons in Hin as [->|Hin]; [discriminate|]).
  by apply elem_of_nil in Hin.
Qed.

(** Writing an attribute leaves every [drug] entry as it was. *)
Lemma drug_fields_alter key value i meds :
  key ≠ "drug" → drug_fields (alter (insert key value) i meds) = drug_fields meds.
Proof.
  intros Hkey. unfold drug_fields.
  rewrite (list_fmap_alter _ _ id).
  - by apply list_alter_id.
  - apply Forall_forall. intros m _. by rewrite lookup_insert_ne.
Qed.

Lemma lowered_drugs_alter key value i meds :
  key ≠ "drug" → lowered_drugs (alter (insert key value) i meds) = lowered_drugs meds.
Proof. intros. by rewrite !lowered_drugs_fields, drug_fields_alter. Qed.

Lemma lowered_drugs_snoc meds drug_name :
  lowered_drugs (meds ++ [ {[ "drug" := drug_name ]} ])
  = lowered_drugs meds ++ [Py.lower drug_name].
Proof.
  unfold lowered_drugs, get_drug. rewrite fmap_app. simpl.
  by rewrite lookup_singleton_eq.
Qed.

Lemma wf_initial : wf_assembly initial.
Proof. split; simpl; try constructor. intros o Hok; discriminate Hok. Qed.

Lemma wf_append_new st drug_name :
  wf_assembly st →
  Py.lower drug_name ∉ INVALID_DRUGS →
  find_existing (medications st) drug_name = None →
  wf_assembly (append_new st drug_name).
Proof.
  intros [Hdrug Hnodup Hvalid Hcur] Hgood Hnone.
  apply list_find_None in Hnone.
  split; unfold append_new; cbn [medications current_med].
  - unfold drug_fields. rewrite fmap_app. apply Forall_app. split; [done|].
    repeat constructor. by rewrite lookup_singleton_eq.
  - rewrite lowered_drugs_snoc. apply NoDup_app. split_and!; [done| |apply NoDup_singleton].
    intros x Hx ->%list_elem_of_singleton.
    apply list_elem_of_fmap in Hx as (m & Hm & Hin).
    rewrite Forall_forall in Hnone. by apply (Hnone m).
  - rewrite lowered_drugs_snoc. apply Forall_app. split; [done|]. by repeat constructor.
  - intros o Hok; injection Hok as <-. eexists. split; [done|]. rewrite length_app. simpl. lia.
Qed.

(** A record found by the lookup is not empty, so [if existing:] holds. *)
Lemma find_existing_not_empty st drug_name i existing :
  wf_assembly st →
  find_existing (medications st) drug_name = Some (i, existing) →
  existing ≠ ∅ ∧ i < length (medications st)
  ∧ Py.lower drug_name ∈ lowered_drugs (medications st).
Proof.
  intros [Hdrug _ _ _] (Hi & Hname & _)%list_find_Some.
  split_and!.
  - intros ->. rewrite Forall_forall in Hdrug.
    destruct (Hdrug ((∅ : gmap string string) !! "drug")) as [d Hd].
    + unfold drug_fields. apply list_elem_of_fmap. exists ∅. split; [done|].
      by eapply list_elem_of_lookup_2.
    + by rewrite lookup_empty in Hd.
  - by eapply lookup_lt_Some.
  - unfold lowered_drugs. apply list_elem_of_fmap. exists existing.
    split; [done|]. by eapply list_elem_of_lookup_2.
Qed.

(** One iteration keeps the invariant; the names of the records afterwards
    are those before it and the name the entity brings, if it brings one. *)
(** Closes [x ∈ names ↔ x ∈ names ∨ o = Some x] when the right disjunct is
    impossible or already among the names. *)
Local Ltac names_iff :=
  intros ?; split; [by left | intros [?|?]; [done | by simplify_eq]].

Lemma step_wf st ent st' :
  wf_assembly st → step st ent = Ok st' →
  wf_assembly st'
  ∧ (∀ x, x ∈ lowered_drugs (medications st')
          ↔ x ∈ lowered_drugs (medications st) ∨ valid_drug ent = Some x)
  ∧ ((∃ o, current_med st = Bound o) ∨ is_Some (valid_drug ent) →
     ∃ o, current_med st' = Bound o).
Proof.
  intros Hwf. destruct ent as [label ent_text]. unfold step, valid_drug. cbn [fst snd].
  destruct (decide (label = "DRUG")) as [->|Hlabel].
  - destruct (decide (Py.lower (Py.strip ent_text) ∈ INVALID_DRUGS)) as [Hbad|Hgood].
    { intros Hok; injection Hok as <-. split_and!; [done|names_iff|].
      intros [?|[? Hsome]]; [done|discriminate Hsome]. }
    destruct (find_existing _ _) as [[i existing]|] eqn:Hfind.
    + destruct (find_existing_not_empty _ _ _ _ Hwf Hfind) as (Hne & Hi & Hin).
      rewrite decide_False by done. intros Hok; injection Hok as <-.
      cbn [medications current_med].
      split_and!; [|names_iff|eauto].
      destruct Hwf. split; cbn [medications current_med]; try done.
      intros o Hok; injection Hok as <-. eauto.
    + intros Hok; injection Hok as <-. split_and!.
      * by apply wf_append_new.
      * intros x. unfold append_new. cbn [medications].
        rewrite lowered_drugs_snoc, elem_of_app, list_elem_of_singleton.
        split; (intros [?|?]; [by left|right; congruence]).
      * unfold append_new. cbn [current_med]. eauto.
  - destruct (decide (label ∈ ATTRIBUTE_LABELS)) as [Hattr|_].
    + destruct (current_med st) as [|[i|]] eqn:Hcur; [done| |].
      * intros Hok; injection Hok as <-. cbn [medications current_med].
        pose proof (attribute_key_not_drug _ Hattr) as Hkey.
        rewrite lowered_drugs_alter by done.
        split_and!; [|names_iff|eauto].
        destruct Hwf as [Hdrug Hnodup Hvalid Hc].
        split; cbn [medications current_med].
        -- by rewrite drug_fields_alter.
        -- by rewrite lowered_drugs_alter.
        -- by rewrite lowered_drugs_alter.
        -- intros o Hok; injection Hok as <-. rewrite length_alter. eauto.
      * intros Hok; injection Hok as <-. split_and!; [done|names_iff|eauto].
    + intros Hok; injection Hok as <-. split_and!; [done|names_iff|].
      intros [?|[? Hsome]]; [done|discriminate Hsome].
Qed.

Lemma step_current_name st ent st' :
  wf_assembly st → step st ent = Ok st' →
  current_name st' = match valid_drug ent with
                     | Some x => Some x
                     | None => current_name st
                     end.
Proof.
  intros Hwf. destruct ent as [label ent_text]. unfold step, valid_drug. cbn [fst snd].
  destruct (decide (label = "DRUG")) as [->|Hlabel].
  - destruct (decide (Py.lower (Py.strip ent_text) ∈ INVALID_DRUGS)) as [Hbad|Hgood].
    { by intros Hok; injection Hok as <-. }
    destruct (find_existing _ _) as [[i existing]|] eqn:Hfind.
    + destruct (find_existing_not_empty _ _ _ _ Hwf Hfind) as (Hne & _ & _).
      rewrite decide_False by done. intros Hok; injection Hok as <-.
      apply list_find_Some in Hfind as (Hi & Hname & _).
      unfold current_name, lowered_drugs. cbn [medications current_med].
      by rewrite list_lookup_fmap, Hi, <-Hname.
    + intros Hok; injection Hok as <-.
      unfold current_name, append_new. cbn [medications current_med].
      rewrite lowered_drugs_snoc. apply list_lookup_middle.
      unfold lowered_drugs. by rewrite length_fmap.
  - destruct (decide (label ∈ ATTRIBUTE_LABELS)) as [Hattr|_].
    + destruct (current_med st) as [|[i|]] eqn:Hcur; [done| |].
      * intros Hok; injection Hok as <-. unfold current_name.
        cbn [medications current_med]. rewrite Hcur.
        by rewrite lowered_drugs_alter by by apply attribute_key_not_drug.
      * by intros Hok; injection Hok as <-.
    + by intros Hok; injection Hok as <-.
Qed.

(** With [current_med] bound, an iteration raises nothing. *)
Lemma step_bound st ent :
  (∃ o, current_med st = Bound o) → ∃ st', step st ent = Ok st'.
Proof.
  intros [o Ho]. destruct ent as [label ent_text]. unfold step.
  repeat case_decide; eauto.
  - destruct (find_existing _ _) as [[i existing]|]; [case_decide|]; eauto.
  - rewrite Ho. destruct o; eauto.
Qed.

(** The only exception an iteration raises. *)
Lemma step_Raise st ent e :
  step st ent = Raise e →
  e = UnboundLocalError "current_med"
  ∧ ent.1 ∈ ATTRIBUTE_LABELS ∧ current_med st = Unbound.
Proof.
  destruct ent as [label ent_text]. unfold step.
  repeat case_decide; try done.
  - destruct (find_existing _ _) as [[i existing]|]; [case_decide|]; done.
  - destruct (current_med st) as [|[i|]]; [|done..].
    intros Hr; injection Hr as <-. done.
Qed.

Lemma assemble_app st ents1 ents2 :
  assemble st (ents1 ++ ents2) = st' ← assemble st ents1; assemble st' ents2.
Proof.
  revert st. induction ents1 as [|ent ents1 IH]; intros st; [done|].
  simpl. destruct (step st ent) as [st1|e]; simpl; [apply IH|done].
Qed.

Lemma valid_drugs_cons ent ents :
  valid_drugs (ent :: ents) = from_option (λ x, [x]) [] (valid_drug ent) ++ valid_drugs ents.
Proof. unfold valid_drugs. simpl. by destruct (valid_drug ent). Qed.

(** The loop keeps the invariant; the names of the records at its end are
    those at its start and those of the valid DRUG entities it met; the
    record [current_med] is bound to is the one of the last of them. *)
Lemma assemble_wf ents : ∀ st st',
  wf_assembly st → assemble st ents = Ok st' →
  wf_assembly st'
  ∧ (∀ x, x ∈ lowered_drugs (medications st')
          ↔ x ∈ lowered_drugs (medications st) ∨ x ∈ valid_drugs ents)
  ∧ current_name st' = match last (valid_drugs ents) with
                       | Some x => Some x
                       | None => current_name st
                       end.
Proof.
  induction ents as [|ent ents IH]; intros st st' Hwf.
  { simpl. intros Hok; injection Hok as <-. split_and!; [done| |done].
    intros x. rewrite elem_of_nil. tauto. }
  rewrite valid_drugs_cons. cbn [assemble].
  destruct (step st ent) as [st1|e] eqn:Hstep; cbn [mbind result_bind]; [|done].
  intros Hloop.
  destruct (step_wf _ _ _ Hwf Hstep) as (Hwf1 & Hnames1 & _).
  pose proof (step_current_name _ _ _ Hwf Hstep) as Hcur1.
  destruct (IH _ _ Hwf1 Hloop) as (Hwf' & Hnames' & Hcur').
  split_and!; [done| |].
  - intros x. rewrite Hnames', Hnames1, elem_of_app.
    destruct (valid_drug ent) as [y|]; simpl.
    + rewrite list_elem_of_singleton.
      assert (Some y = Some x ↔ x = y) as -> by (split; congruence). tauto.
    + rewrite elem_of_nil.
      assert (None = Some x ↔ False) as -> by (split; [discriminate|tauto]). tauto.
  - rewrite Hcur', Hcur1. destruct (valid_drug ent) as [y|]; simpl; [|done].
    destruct (valid_drugs ents) as [|z zs] eqn:Hz; [done|].
    rewrite last_cons_cons. destruct (last (z :: zs)) eqn:Hlast; [done|].
    by apply last_None in Hlast.
Qed.

(** Once [current_med] is bound the loop runs to its end. *)
Lemma assemble_bound ents : ∀ st,
  (∃ o, current_med st = Bound o) →
  ∃ st', assemble st ents = Ok st' ∧ ∃ o', current_med st' = Bound o'.
Proof.
  induction ents as [|ent ents IH]; intros st Hb; simpl; [eauto|].
  destruct (step_bound st ent Hb) as [st1 Hstep]. rewrite Hstep. simpl.
  apply IH. destruct Hb as [o Ho]. revert Hstep.
  destruct ent as [label ent_text]. unfold step.
  repeat case_decide.
  - intros Hok; injection Hok as <-. eauto.
  - destruct (find_existing _ _) as [[i existing]|]; [case_decide|];
      intros Hok; injection Hok as <-; unfold append_new; cbn [current_med]; eauto.
  - rewrite Ho. destruct o; intros Hok; injection Hok as <-; cbn [current_med]; eauto.
  - intros Hok; injection Hok as <-. eauto.
Qed.

Lemma assemble_Raise ents : ∀ st e,
  assemble st ents = Raise e → e = UnboundLocalError "current_med".
Proof.
  induction ents as [|ent ents IH]; intros st e; simpl; [done|].
  destruct (step st ent) as [st1|e1] eqn:Hstep; simpl; [apply IH|].
  intros Hr; injection Hr as <-. by apply step_Raise in Hstep as [-> _].
Qed.

(** Before any valid DRUG entity the state is still the initial one. *)
Lemma assemble_no_valid_drug ents :
  valid_drugs ents = [] →
  assemble initial ents = Ok initial
  ∨ assemble initial ents = Raise (UnboundLocalError "current_med").
Proof.
  induction ents as [|[label ent_text] ents IH]; [by left|].
  rewrite valid_drugs_cons. unfold valid_drug at 1. cbn [fst snd].
  cbn [assemble]. unfold step. cbn [initial current_med].
  repeat case_decide; simpl; try done; auto.
Qed.

End Assembly.

(** ** [extract_medications] *)

Section Medications.

Implicit Types (meds : list (gmap string string)).
Implicit Types (ents : list (string * string)).

Lemma or_None_None {A} (l : list A) : or_None l = None ↔ l = [].
Proof. by destruct l. Qed.

Lemma or_None_Some {A} (l k : list A) : or_None l = Some k → k = l ∧ l ≠ [].
Proof. destruct l; [done|]. by intros Hk; injection Hk as <-. Qed.

Lemma medications_of_Ok ents r :
  medications_of ents = Ok r →
  ∃ st, assemble initial ents = Ok st ∧ r = or_None (medications st).
Proof.
  unfold medications_of. destruct (assemble initial ents) as [st|e]; [|done].
  cbn [mbind result_bind]. intros Hok; injection Hok as <-. eauto.
Qed.

(** What a call that returns has returned. *)
Lemma medications_of_returned ents r :
  medications_of ents = Ok r →
  r ≠ Some []
  ∧ (r = None ↔ valid_drugs ents = [])
  ∧ ∀ meds, r = Some meds →
      Forall is_Some (drug_fields meds)
      ∧ NoDup (lowered_drugs meds)
      ∧ Forall (λ d, d ∉ INVALID_DRUGS) (lowered_drugs meds)
      ∧ ∀ x, x ∈ lowered_drugs meds ↔ x ∈ valid_drugs ents.
Proof.
  intros (st & Hloop & ->)%medications_of_Ok.
  destruct (assemble_wf _ _ _ wf_initial Hloop) as ([Hdrug Hnodup Hvalid _] & Hnames & _).
  assert (∀ x, x ∈ lowered_drugs (medications st) ↔ x ∈ valid_drugs ents) as Hiff.
  { intros x. rewrite Hnames. cbn. rewrite elem_of_nil. tauto. }
  split_and!.
  - intros [Heq Hne]%or_None_Some. congruence.
  - rewrite or_None_None. split.
    + intros Hnil. apply elem_of_nil_inv. intros x Hx%Hiff.
      rewrite Hnil in Hx. by apply elem_of_nil in Hx.
    + intros Hnil. destruct (medications st) as [|m ms] eqn:Hm; [done|].
      specialize (Hiff (Py.lower (get_drug m))). rewrite Hnil in Hiff.
      exfalso. eapply elem_of_nil, Hiff. unfold lowered_drugs. simpl. left.
  - by intros meds [-> _]%or_None_Some.
Qed.

(** The call returns as soon as a valid DRUG entity comes before every
    attribute entity. *)
Lemma medications_of_returns pre ent ents :
  Forall (λ e, e.1 ∉ ATTRIBUTE_LABELS) pre → is_Some (valid_drug ent) →
  ∃ r, medications_of (pre ++ ent :: ents) = Ok r.
Proof.
  intros Hpre Hent.
  assert (∃ st, assemble initial pre = Ok st ∧ wf_assembly st) as (st & Hst & Hwf).
  { pose proof wf_initial as Hwf. revert Hwf. generalize initial.
    induction Hpre as [|e pre He _ IH]; intros st Hwf; [by exists st|].
    cbn [assemble]. destruct (step st e) as [st1|x] eqn:Hstep.
    - cbn [mbind result_bind]. apply IH. by eapply step_wf.
    - apply step_Raise in Hstep as (_ & Hattr & _). done. }
  destruct (step st ent) as [st1|x] eqn:Hstep.
  - destruct (step_wf _ _ _ Hwf Hstep) as (_ & _ & Hb).
    destruct (assemble_bound ents st1) as (st2 & Hst2 & _); [by apply Hb; right|].
    exists (or_None (medications st2)). unfold medications_of.
    rewrite assemble_app, Hst. cbn [mbind result_bind assemble].
    rewrite Hstep. cbn [mbind result_bind]. by rewrite Hst2.
  - apply step_Raise in Hstep as (_ & Hattr & _).
    destruct Hent as [x' Hx']. unfold valid_drug in Hx'.
    case_decide as Hlabel; [|done]. by apply attribute_not_DRUG in Hattr.
Qed.

(** An attribute entity that no valid DRUG entity precedes ends the call
    with an exception, whatever follows it. *)
Lemma medications_of_orphan_attribute pre label value ents :
  valid_drugs pre = [] → label ∈ ATTRIBUTE_LABELS →
  medications_of (pre ++ (label, value) :: ents) = Raise (UnboundLocalError "current_med").
Proof.
  intros Hpre Hattr. unfold medications_of. rewrite assemble_app.
  destruct (assemble_no_valid_drug pre Hpre) as [-> | ->]; [|done].
  cbn [mbind result_bind assemble]. unfold step. cbn [initial current_med].
  rewrite decide_False by by apply attribute_not_DRUG.
  by rewrite decide_True by done.
Qed.

(** An entity the block list stops changes nothing. *)
Lemma step_invalid_drug st ent_text :
  Py.lower (Py.strip ent_text) ∈ INVALID_DRUGS → step st ("DRUG", ent_text) = Ok st.
Proof. intros Hbad. unfold step. rewrite decide_True by done. by rewrite decide_True. Qed.

(** An attribute entity writes its text under its key, whatever the record
    held there. *)
Lemma step_attribute meds i label value :
  label ∈ ATTRIBUTE_LABELS →
  step (mkAssembly meds (Bound (Some i))) (label, value)
  = Ok (mkAssembly (alter (insert (Py.lower label) value) i meds) (Bound (Some i))).
Proof.
  intros Hattr. unfold step. cbn [medications current_med].
  rewrite decide_False by by apply attribute_not_DRUG.
  by rewrite decide_True by done.
Qed.

Lemma assemble_cons st ent ents :
  assemble st (ent :: ents) = st' ← step st ent; assemble st' ents.
Proof. done. Qed.

(** A valid DRUG entity whose name no record has yet opens a record. *)
Lemma step_new_drug st ent_text :
  Py.lower (Py.strip ent_text) ∉ INVALID_DRUGS →
  find_existing (medications st) (Py.strip ent_text) = None →
  step st ("DRUG", ent_text) = Ok (append_new st (Py.strip ent_text)).
Proof.
  intros Hgood Hnone. unfold step. rewrite decide_True by done.
  rewrite decide_False by done. by rewrite Hnone.
Qed.

(** A valid DRUG entity whose name a record has, up to case, resumes the
    first such record. *)
Lemma step_resume_drug st ent_text i existing :
  wf_assembly st →
  Py.lower (Py.strip ent_text) ∉ INVALID_DRUGS →
  find_existing (medications st) (Py.strip ent_text) = Some (i, existing) →
  step st ("DRUG", ent_text) = Ok (mkAssembly (medications st) (Bound (Some i))).
Proof.
  intros Hwf Hgood Hfind. unfold step. rewrite decide_True by done.
  rewrite decide_False by done. rewrite Hfind.
  destruct (find_existing_not_empty _ _ _ _ Hwf Hfind) as (Hne & _).
  by rewrite decide_False.
Qed.

End Medications.

(** *** Case and white space *)

Lemma isspace_lower_char c : Py.isspace (Py.lower_char c) = Py.isspace c.
Proof. by destruct c as [[] [] [] [] [] [] [] []]. Qed.

Lemma lower_lstrip s : Py.lower (Py.lstrip s) = Py.lstrip (Py.lower s).
Proof.
  induction s as [|c r IH]; [done|]. simpl. rewrite isspace_lower_char.
  by destruct (Py.isspace c).
Qed.

Lemma lower_rstrip s : Py.lower (Py.rstrip s) = Py.rstrip (Py.lower s).
Proof.
  induction s as [|c r IH]; [done|]. simpl. rewrite <-IH, isspace_lower_char.
  destruct (Py.rstrip r); simpl; [by destruct (Py.isspace c)|done].
Qed.

Lemma lower_strip s : Py.lower (Py.strip s) = Py.strip (Py.lower s).
Proof. unfold Py.strip. by rewrite lower_rstrip, lower_lstrip. Qed.

(** A text that is a blocked name up to case is one after stripping too. *)
Lemma invalid_up_to_case ent_text :
  Py.lower ent_text ∈ INVALID_DRUGS → Py.lower (Py.strip ent_text) ∈ INVALID_DRUGS.
Proof.
  unfold INVALID_DRUGS. rewrite !elem_of_singleton, lower_strip. by intros ->.
Qed.

(** *** An attribute entity before any DRUG entity *)

(** C1 (the code departs from the claim).  When the first entity the merger
    yields carries an attribute label, the first iteration reads
    [current_med], which nothing has assigned: the call ends with
    [UnboundLocalError] instead of skipping the entity. *)
Theorem extract_medications_orphan_attribute_raises
    (nlp_med7 : string → list Span) (text label value : string)
    (ents : list (string * string)) :
  merge_medication_entities (nlp_med7 (clean_text text)) = (label, value) :: ents →
  label ∈ ATTRIBUTE_LABELS →
  extract_medications nlp_med7 text = Raise (UnboundLocalError "current_med").
Proof.
  intros Hents Hattr. unfold extract_medications. rewrite Hents.
  by apply (medications_of_orphan_attribute []).
Qed.

Lemma extract_medications_orphan_attribute_raises_witness :
  "STRENGTH" ∈ ATTRIBUTE_LABELS
  ∧ extract_medications (labeler_of [mkSpan "STRENGTH" "500mg" 0 1]) "500mg"
    = Raise (UnboundLocalError "current_med").
Proof.
  assert ("STRENGTH" ∈ ATTRIBUTE_LABELS) as Hattr by apply list_elem_of_here.
  split; [exact Hattr|].
  exact (extract_medications_orphan_attribute_raises
           (labeler_of [mkSpan "STRENGTH" "500mg" 0 1]) "500mg" "STRENGTH" "500mg" []
           eq_refl Hattr).
Defined.

(** *** Two attribute entities with one label *)

(** C2 (the code departs from the claim).  A second attribute entity with
    the label of an earlier one, for the same record, replaces the value the
    first one stored: the field ends with the last value, not the first. *)
Theorem extract_medications_attribute_overwritten
    (nlp_med7 : string → list Span) (text drug label first second : string) :
  merge_medication_entities (nlp_med7 (clean_text text))
  = [("DRUG", drug); (label, first); (label, second)] →
  Py.lower (Py.strip drug) ∉ INVALID_DRUGS →
  label ∈ ATTRIBUTE_LABELS →
  extract_medications nlp_med7 text
  = Ok (Some [ <[Py.lower label := second]> {[ "drug" := Py.strip drug ]} ]).
Proof.
  intros Hents Hgood Hattr. unfold extract_medications, medications_of. rewrite Hents.
  rewrite assemble_cons, step_new_drug by done. cbn [mbind result_bind].
  unfold append_new. cbn [initial medications length app].
  rewrite assemble_cons, step_attribute by done. cbn [mbind result_bind].
  rewrite assemble_cons, step_attribute by done. cbn [mbind result_bind].
  cbn [assemble medications alter list_alter or_None].
  by rewrite insert_insert_eq.
Qed.

Lemma extract_medications_attribute_overwritten_witness :
  extract_medications
    (labeler_of [mkSpan "DRUG" "Aspirin" 0 1; mkSpan "STRENGTH" "500mg" 2 3;
                 mkSpan "STRENGTH" "100mg" 4 5]) "Aspirin 500mg or 100mg"
  = Ok (Some [ <["strength" := "100mg"]> {[ "drug" := "Aspirin" ]} ]).
Proof.
  refine (extract_medications_attribute_overwritten
            (labeler_of [mkSpan "DRUG" "Aspirin" 0 1; mkSpan "STRENGTH" "500mg" 2 3;
                         mkSpan "STRENGTH" "100mg" 4 5])
            "Aspirin 500mg or 100mg" "Aspirin" "STRENGTH" "500mg" "100mg" eq_refl _ _).
  - vm_compute. discriminate.
  - apply list_elem_of_here.
Defined.

(** *** No valid DRUG entity *)

(** C4 (the code departs from the claim).  With no valid DRUG entity and an
    attribute entity in the sequence the call does not return null: it ends
    with [UnboundLocalError]. *)
Theorem extract_medications_no_drug_raises
    (nlp_med7 : string → list Span) (text label value : string) :
  valid_drugs (merge_medication_entities (nlp_med7 (clean_text text))) = [] →
  (label, value) ∈ merge_medication_entities (nlp_med7 (clean_text text)) →
  label ∈ ATTRIBUTE_LABELS →
  extract_medications nlp_med7 text = Raise (UnboundLocalError "current_med").
Proof.
  intros Hnone Hin Hattr. unfold extract_medications.
  apply list_elem_of_split in Hin as (pre & post & Hents). rewrite Hents in *.
  apply medications_of_orphan_attribute; [|done].
  unfold valid_drugs in *. rewrite omap_app in Hnone.
  by apply app_eq_nil in Hnone as [? _].
Qed.

Lemma extract_medications_no_drug_raises_witness :
  extract_medications
    (labeler_of [mkSpan "DRUG" "Generic" 0 1; mkSpan "DOSAGE" "2 tablets" 2 4;
                 mkSpan "FREQUENCY" "daily" 5 6]) "Generic: 2 tablets, daily"
  = Raise (UnboundLocalError "current_med").
Proof.
  refine (extract_medications_no_drug_raises
            (labeler_of [mkSpan "DRUG" "Generic" 0 1; mkSpan "DOSAGE" "2 tablets" 2 4;
                         mkSpan "FREQUENCY" "daily" 5 6])
            "Generic: 2 tablets, daily" "FREQUENCY" "daily" eq_refl _ _).
  - vm_compute. do 2 apply list_elem_of_further. apply list_elem_of_here.
  - do 4 apply list_elem_of_further. apply list_elem_of_here.
Defined.

(** A valid DRUG entity after an attribute entity does not help either. *)
Example extract_medications_attribute_then_drug :
  extract_medications
    (labeler_of [mkSpan "STRENGTH" "500mg" 0 1; mkSpan "DRUG" "Metformin" 2 3]) "500mg of Metformin"
  = Raise (UnboundLocalError "current_med").
Proof. reflexivity. Qed.

(** What the claim says does hold of every call that returns. *)
Lemma extract_medications_null_iff_no_drug
    (nlp_med7 : string → list Span) (text : string)
    (r : option (list (gmap string string))) :
  extract_medications nlp_med7 text = Ok r →
  r ≠ Some []
  ∧ (r = None ↔ valid_drugs (merge_medication_entities (nlp_med7 (clean_text text))) = []).
Proof.
  intros Hr. destruct (medications_of_returned _ _ Hr) as (? & ? & _). done.
Qed.

(** *** One record per drug name *)

Section Counting.

Context {A B : Type} `{EqDecision B} (f : A → B).

Lemma filter_image_nil y (l : list A) :
  y ∉ f <$> l → filter (λ a, f a = y) l = [].
Proof.
  induction l as [|a l IH]; [done|]. rewrite fmap_cons, not_elem_of_cons.
  intros [Hne Hnotin]. rewrite filter_cons_False by done. auto.
Qed.

(** In a list whose images are pairwise distinct, an image that occurs is
    the image of exactly one element. *)
Lemma filter_image_one y (l : list A) :
  NoDup (f <$> l) → y ∈ f <$> l → length (filter (λ a, f a = y) l) = 1.
Proof.
  induction l as [|a l IH]; [by intros _ ?%elem_of_nil|].
  rewrite fmap_cons, NoDup_cons, elem_of_cons. intros [Hnotin Hnodup] Hin.
  destruct (decide (f a = y)) as [Heq|Hne].
  - rewrite filter_cons_True by done. simpl.
    rewrite filter_image_nil; [done|]. by rewrite <-Heq.
  - rewrite filter_cons_False by done. apply IH; [done|].
    by destruct Hin as [->|].
Qed.

End Counting.

(** The record the lookup of a name finds is the one record of that name. *)
Lemma find_existing_at (meds : list (gmap string string)) (drug_name : string)
    (i : nat) (m : gmap string string) :
  NoDup (lowered_drugs meds) →
  meds !! i = Some m →
  Py.lower (get_drug m) = Py.lower drug_name →
  find_existing meds drug_name = Some (i, m).
Proof.
  intros Hnodup Hi Hname. apply list_find_Some. split_and!; [done..|].
  intros j y Hj Hlt Hy.
  assert (lowered_drugs meds !! i = Some (Py.lower drug_name)) as Hi'
    by (unfold lowered_drugs; by rewrite list_lookup_fmap, Hi, <-Hname).
  assert (lowered_drugs meds !! j = Some (Py.lower drug_name)) as Hj'
    by (unfold lowered_drugs; by rewrite list_lookup_fmap, Hj, <-Hy).
  pose proof (NoDup_lookup _ _ _ _ Hnodup Hi' Hj'). lia.
Qed.

Lemma alter_at {A} (f : A → A) (l : list A) (i : nat) (x : A) :
  l !! i = Some x → alter f i l = <[i := f x]> l.
Proof.
  intros Hi. apply list_eq. intros j. destruct (decide (i = j)) as [<-|Hne].
  - rewrite list_lookup_alter_eq, Hi. cbn.
    by rewrite list_lookup_insert_eq by by eapply lookup_lt_Some.
  - by rewrite list_lookup_alter_ne, list_lookup_insert_ne.
Qed.

(** C5. In the list a call returns no two records have the same drug name up
    to case.  When two DRUG entities of the sequence have the same valid
    name up to case, the list has exactly one record of that name; when the
    sequence is just these two entities, the result is the one record the
    first of them opened, which the second resumed.  That the later
    occurrence resumes the record, and is not merely passed over, shows in
    what follows it: after any entities that have built the records [meds],
    a DRUG entity with the name, up to case, of the record at position [i]
    appends nothing, and an attribute entity that comes next is written into
    that record, wherever it stands and whichever drug was met just
    before. *)
Theorem extract_medications_drug_unique
    (nlp_med7 : string → list Span) (text : string)
    (r : option (list (gmap string string))) :
  extract_medications nlp_med7 text = Ok r →
  (∀ meds, r = Some meds → NoDup (lowered_drugs meds))
  ∧ (∀ i j a b,
       i < j →
       merge_medication_entities (nlp_med7 (clean_text text)) !! i = Some ("DRUG", a) →
       merge_medication_entities (nlp_med7 (clean_text text)) !! j = Some ("DRUG", b) →
       Py.lower (Py.strip a) = Py.lower (Py.strip b) →
       Py.lower (Py.strip a) ∉ INVALID_DRUGS →
       ∃ meds, r = Some meds
         ∧ length (filter (λ m, Py.lower (get_drug m) = Py.lower (Py.strip a)) meds) = 1)
  ∧ (∀ a b,
       merge_medication_entities (nlp_med7 (clean_text text)) = [("DRUG", a); ("DRUG", b)] →
       Py.lower (Py.strip a) = Py.lower (Py.strip b) →
       Py.lower (Py.strip a) ∉ INVALID_DRUGS →
       r = Some [ {[ "drug" := Py.strip a ]} ])
  ∧ (∀ pre b label value meds i m,
       merge_medication_entities (nlp_med7 (clean_text text))
       = pre ++ [("DRUG", b); (label, value)] →
       medications_of pre = Ok (Some meds) →
       meds !! i = Some m →
       Py.lower (get_drug m) = Py.lower (Py.strip b) →
       label ∈ ATTRIBUTE_LABELS →
       r = Some (<[i := <[Py.lower label := value]> m]> meds)).
Proof.
  unfold extract_medications. intros Hr.
  destruct (medications_of_returned _ _ Hr) as (_ & Hnone & Hsome).
  split_and!.
  - intros meds Hmeds. by destruct (Hsome meds Hmeds) as (_ & ? & _).
  - intros i j a b _ Hi _ _ Hgood.
    assert (Py.lower (Py.strip a)
            ∈ valid_drugs (merge_medication_entities (nlp_med7 (clean_text text)))) as Hin.
    { apply list_elem_of_omap. exists ("DRUG", a). split; [by eapply list_elem_of_lookup_2|].
      unfold valid_drug. cbn [fst snd]. rewrite decide_True by done.
      by rewrite decide_False. }
    destruct r as [meds|].
    + exists meds. split; [done|].
      destruct (Hsome meds eq_refl) as (_ & Hnodup & _ & Hnames).
      apply (filter_image_one (λ m, Py.lower (get_drug m))); [done|].
      by apply Hnames.
    + rewrite (proj1 Hnone eq_refl) in Hin. by apply elem_of_nil in Hin.
  - intros a b Hents Hsame Hgood. rewrite Hents in Hr.
    unfold medications_of in Hr. revert Hr.
    rewrite assemble_cons, step_new_drug by done. cbn [mbind result_bind].
    rewrite assemble_cons.
    rewrite (step_resume_drug _ _ 0 {[ "drug" := Py.strip a ]}).
    + cbn. by intros Hok; injection Hok as <-.
    + by apply wf_append_new; [apply wf_initial|..].
    + by rewrite <-Hsame.
    + unfold append_new, find_existing. cbn [initial medications app list_find].
      rewrite decide_True; [done|].
      unfold get_drug. by rewrite lookup_singleton_eq.
  - intros pre b label value meds i m Hents Hpre Hi Hname Hattr.
    rewrite Hents in Hr. clear Hnone Hsome Hents.
    destruct (medications_of_Ok _ _ Hpre) as (st & Hloop & Hmeds).
    symmetry in Hmeds. apply or_None_Some in Hmeds as [-> Hne].
    destruct (assemble_wf _ _ _ wf_initial Hloop) as (Hwf & _ & _).
    assert (Py.lower (Py.strip b) ∉ INVALID_DRUGS) as Hgood.
    { destruct Hwf as [_ _ Hvalid _]. rewrite Forall_forall in Hvalid.
      apply Hvalid. rewrite <-Hname. unfold lowered_drugs.
      apply list_elem_of_fmap. exists m. split; [done|].
      by eapply list_elem_of_lookup_2. }
    assert (find_existing (medications st) (Py.strip b) = Some (i, m)) as Hfind
      by (apply find_existing_at; [apply Hwf|done..]).
    revert Hr. unfold medications_of. rewrite assemble_app, Hloop.
    cbn [mbind result_bind].
    rewrite assemble_cons, (step_resume_drug _ _ _ _ Hwf Hgood Hfind).
    cbn [mbind result_bind].
    rewrite assemble_cons, step_attribute by done.
    cbn [mbind result_bind assemble medications].
    rewrite (alter_at _ _ _ _ Hi). intros Hok; injection Hok as <-.
    destruct (medications st) as [|m0 ms]; [done|]. by destruct i.
Qed.

Lemma extract_medications_drug_unique_witness :
  extract_medications
    (labeler_of [mkSpan "DRUG" "Aspirin" 0 1; mkSpan "DRUG" "Zinc" 2 3;
                 mkSpan "DRUG" "aspirin" 4 5; mkSpan "STRENGTH" "500mg" 6 7])
    "Aspirin or Zinc; aspirin at 500mg"
  = Ok (Some [ <["strength" := "500mg"]> {[ "drug" := "Aspirin" ]}; {[ "drug" := "Zinc" ]} ])
  ∧ NoDup (lowered_drugs
             [ <["strength" := "500mg"]> {[ "drug" := "Aspirin" ]}; {[ "drug" := "Zinc" ]} ])
  ∧ Some [ <["strength" := "500mg"]> {[ "drug" := "Aspirin" ]};
           ({[ "drug" := "Zinc" ]} : gmap string string) ]
    = Some (<[0 := <[Py.lower "STRENGTH" := "500mg"]> {[ "drug" := "Aspirin" ]}]>
              [ {[ "drug" := "Aspirin" ]}; {[ "drug" := "Zinc" ]} ]).
Proof.
  assert (extract_medications
            (labeler_of [mkSpan "DRUG" "Aspirin" 0 1; mkSpan "DRUG" "Zinc" 2 3;
                         mkSpan "DRUG" "aspirin" 4 5; mkSpan "STRENGTH" "500mg" 6 7])
            "Aspirin or Zinc; aspirin at 500mg"
          = Ok (Some [ <["strength" := "500mg"]> {[ "drug" := "Aspirin" ]};
                       {[ "drug" := "Zinc" ]} ])) as Hrun by (vm_compute; reflexivity).
  destruct (extract_medications_drug_unique _ _ _ Hrun) as (Hnodup & _ & _ & Hresume).
  split_and!; [exact Hrun|exact (Hnodup _ eq_refl)|].
  refine (Hresume [("DRUG", "Aspirin"); ("DRUG", "Zinc")] "aspirin" "STRENGTH" "500mg"
            [ {[ "drug" := "Aspirin" ]}; {[ "drug" := "Zinc" ]} ] 0 {[ "drug" := "Aspirin" ]}
            eq_refl _ eq_refl _ _).
  - vm_compute. reflexivity.
  - reflexivity.
  - apply list_elem_of_here.
Defined.

(** *** The block list *)

(** C7. A DRUG entity whose text is a blocked name up to case leaves the
    records as they are, and no record a call returns has the drug name
    generic in any casing. *)
Theorem extract_medications_never_generic :
  (∀ st g, Py.lower g ∈ INVALID_DRUGS → step st ("DRUG", g) = Ok st)
  ∧ (∀ (nlp_med7 : string → list Span) text meds,
       extract_medications nlp_med7 text = Ok (Some meds) →
       ∀ m d, m ∈ meds → m !! "drug" = Some d → Py.lower d ≠ "generic").
Proof.
  split.
  - intros st g Hbad. by apply step_invalid_drug, invalid_up_to_case.
  - unfold extract_medications. intros nlp_med7 text meds Hr m d Hm Hd.
    destruct (medications_of_returned _ _ Hr) as (_ & _ & Hsome).
    destruct (Hsome meds eq_refl) as (_ & _ & Hvalid & _).
    rewrite Forall_forall in Hvalid. intros Hgeneric.
    apply (Hvalid (Py.lower d)).
    + unfold lowered_drugs. apply list_elem_of_fmap. exists m.
      split; [|done]. unfold get_drug. by rewrite Hd.
    + rewrite Hgeneric. by apply elem_of_singleton.
Qed.

Lemma extract_medications_never_generic_witness :
  extract_medications
    (labeler_of [mkSpan "DRUG" "Aspirin" 0 1; mkSpan "DRUG" " GENERIC " 2 3;
                 mkSpan "DRUG" "Generic" 4 5]) "Aspirin ( GENERIC ) Generic"
  = Ok (Some [ {[ "drug" := "Aspirin" ]} ])
  ∧ Py.lower "Aspirin" ≠ "generic".
Proof.
  assert (extract_medications
            (labeler_of [mkSpan "DRUG" "Aspirin" 0 1; mkSpan "DRUG" " GENERIC " 2 3;
                         mkSpan "DRUG" "Generic" 4 5]) "Aspirin ( GENERIC ) Generic"
          = Ok (Some [ {[ "drug" := "Aspirin" ]} ])) as Hrun by (vm_compute; reflexivity).
  split; [exact Hrun|].
  refine (proj2 extract_medications_never_generic _ _ _ Hrun _ "Aspirin" _ _).
  - apply list_elem_of_here.
  - apply lookup_singleton_eq.
Defined.

(** C10. A DRUG entity the block list stops leaves [medications] and
    [current_med] as they were.  When a valid DRUG entity came before it, an
    attribute entity that follows it is written into the record
    [current_med] was bound to, which is the record of the last valid DRUG
    entity met; and the call returns what it returns on the sequence without
    the stopped entity. *)
Theorem invalid_drug_keeps_current_med :
  (∀ st g, Py.lower (Py.strip g) ∈ INVALID_DRUGS → step st ("DRUG", g) = Ok st)
  ∧ (∀ pre g label value st,
       Py.lower (Py.strip g) ∈ INVALID_DRUGS →
       label ∈ ATTRIBUTE_LABELS →
       assemble initial pre = Ok st →
       valid_drugs pre ≠ [] →
       ∃ i m,
         current_med st = Bound (Some i)
         ∧ medications st !! i = Some m
         ∧ Some (Py.lower (get_drug m)) = last (valid_drugs pre)
         ∧ assemble initial (pre ++ [("DRUG", g); (label, value)])
           = Ok (mkAssembly (<[i := <[Py.lower label := value]> m]> (medications st))
                            (Bound (Some i))))
  ∧ (∀ pre g post,
       Py.lower (Py.strip g) ∈ INVALID_DRUGS →
       medications_of (pre ++ ("DRUG", g) :: post) = medications_of (pre ++ post)).
Proof.
  split_and!.
  - apply step_invalid_drug.
  - intros pre g label value [meds cur] Hbad Hattr Hpre Hsome.
    destruct (assemble_wf _ _ _ wf_initial Hpre) as (_ & _ & Hname).
    unfold current_name in Hname. cbn [medications current_med initial] in *.
    destruct (last (valid_drugs pre)) as [x|] eqn:Hlast;
      [|by apply last_None in Hlast].
    destruct cur as [|[i|]]; [done| |done].
    unfold lowered_drugs in Hname. rewrite list_lookup_fmap in Hname.
    destruct (meds !! i) as [m|] eqn:Hm; [|done].
    exists i, m. split_and!; [done..|].
    rewrite assemble_app, Hpre. cbn [mbind result_bind].
    rewrite assemble_cons, step_invalid_drug by done. cbn [mbind result_bind].
    rewrite assemble_cons, step_attribute by done. cbn [mbind result_bind assemble].
    do 2 f_equal. apply list_eq. intros j.
    destruct (decide (i = j)) as [<-|Hne].
    + rewrite list_lookup_alter_eq, Hm. cbn.
      by rewrite list_lookup_insert_eq by by eapply lookup_lt_Some.
    + by rewrite list_lookup_alter_ne, list_lookup_insert_ne.
  - intros pre g post Hbad. unfold medications_of. rewrite !assemble_app.
    destruct (assemble initial pre) as [st|e]; [|done]. cbn [mbind result_bind].
    by rewrite assemble_cons, step_invalid_drug.
Qed.

Lemma invalid_drug_keeps_current_med_witness :
  medications_of [("DRUG", "Aspirin"); ("DRUG", "Generic"); ("STRENGTH", "500mg")]
  = Ok (Some [ <["strength" := "500mg"]> {[ "drug" := "Aspirin" ]} ]).
Proof.
  assert (Py.lower (Py.strip "Generic") ∈ INVALID_DRUGS) as Hbad
    by by apply elem_of_singleton.
  etrans.
  - exact (proj2 (proj2 invalid_drug_keeps_current_med)
             [("DRUG", "Aspirin")] "Generic" [("STRENGTH", "500mg")] Hbad).
  - vm_compute. reflexivity.
Defined.

(** ** [extract_tests] *)

Section Tests.

Lemma bucket_labelled matches : ∀ patho radio,
  bucket matches patho radio
  = (patho ++ labelled "PATHOLOGY TEST" matches, radio ++ labelled "RADIOLOGY TEST" matches).
Proof.
  unfold labelled.
  induction matches as [|[label span_text] matches IH]; intros patho radio.
  { simpl. by rewrite !app_nil_r. }
  cbn [bucket]. destruct (decide (label = "PATHOLOGY TEST")) as [->|Hp].
  - rewrite IH, filter_cons_True by done. rewrite filter_cons_False by done.
    by rewrite <-app_assoc.
  - destruct (decide (label = "RADIOLOGY TEST")) as [->|Hr].
    + rewrite IH, filter_cons_False by done. rewrite filter_cons_True by done.
      by rewrite <-app_assoc.
    + rewrite IH. by rewrite !filter_cons_False by done.
Qed.

(** [list(set(l)) or None] *)
Lemma or_None_set_None (l : list string) :
  or_None (elements (list_to_set l : gset string)) = None ↔ l = [].
Proof.
  rewrite or_None_None. split; [|by intros ->].
  intros Hel. apply elem_of_nil_inv. intros x Hx.
  apply (elem_of_list_to_set (C := gset string)), elem_of_elements in Hx.
  rewrite Hel in Hx. by apply elem_of_nil in Hx.
Qed.

Lemma or_None_set_Some (l k : list string) :
  or_None (elements (list_to_set l : gset string)) = Some k →
  NoDup k ∧ ∀ x, x ∈ k ↔ x ∈ l.
Proof.
  intros [-> _]%or_None_Some. split; [apply NoDup_elements|].
  intros x. by rewrite elem_of_elements, elem_of_list_to_set.
Qed.

Lemma word_matcher_no_patterns cleaned_text : word_matcher [] cleaned_text = [].
Proof. unfold word_matcher. by induction (String.words cleaned_text). Qed.

End Tests.

(** C8. Each side of the pair [extract_tests] returns is null exactly when
    no match carries its label, whatever the other side is; a side that is
    not null lists the texts matched under its label, each once; and with
    both term lists empty the matcher is called with no pattern added, so
    that, as a matcher without patterns finds nothing, both sides are
    null. *)
Theorem extract_tests_null_iff_no_match
    (phrase_matcher : list (string * list string) → string → list (string * string))
    (text : string) (pathology_terms radiology_terms : list string) :
  ((extract_tests phrase_matcher text pathology_terms radiology_terms).1 = None
   ↔ labelled "PATHOLOGY TEST"
       (phrase_matcher (added_patterns pathology_terms radiology_terms) (clean_text text)) = [])
  ∧ ((extract_tests phrase_matcher text pathology_terms radiology_terms).2 = None
     ↔ labelled "RADIOLOGY TEST"
         (phrase_matcher (added_patterns pathology_terms radiology_terms) (clean_text text)) = [])
  ∧ (∀ patho, (extract_tests phrase_matcher text pathology_terms radiology_terms).1 = Some patho →
       NoDup patho
       ∧ ∀ s, s ∈ patho ↔
           ("PATHOLOGY TEST", s)
           ∈ phrase_matcher (added_patterns pathology_terms radiology_terms) (clean_text text))
  ∧ (∀ radio, (extract_tests phrase_matcher text pathology_terms radiology_terms).2 = Some radio →
       NoDup radio
       ∧ ∀ s, s ∈ radio ↔
           ("RADIOLOGY TEST", s)
           ∈ phrase_matcher (added_patterns pathology_terms radiology_terms) (clean_text text))
  ∧ (pathology_terms = [] → radiology_terms = [] →
     added_patterns pathology_terms radiology_terms = []
     ∧ ((∀ cleaned_text, phrase_matcher [] cleaned_text = []) →
        extract_tests phrase_matcher text pathology_terms radiology_terms = (None, None))).
Proof.
  unfold extract_tests. rewrite bucket_labelled. cbn [app fst snd].
  assert (∀ label s matches, s ∈ labelled label matches ↔ (label, s) ∈ matches) as Hin.
  { intros label s matches. unfold labelled. rewrite list_elem_of_fmap. split.
    - intros ([l s'] & -> & [Hl Hm]%list_elem_of_filter). simpl in Hl. by subst.
    - intros Hm. exists (label, s). split; [done|]. by apply list_elem_of_filter. }
  split_and!.
  - apply or_None_set_None.
  - apply or_None_set_None.
  - intros patho [Hnodup Hiff]%or_None_set_Some. split; [done|].
    intros s. by rewrite Hiff, Hin.
  - intros radio [Hnodup Hiff]%or_None_set_Some. split; [done|].
    intros s. by rewrite Hiff, Hin.
  - intros -> ->. split; [done|]. intros Hempty. cbn [added_patterns app].
    by rewrite Hempty.
Qed.

Lemma extract_tests_null_iff_no_match_witness :
  extract_tests word_matcher "Metformin prescribed." [] [] = (None, None)
  ∧ (extract_tests word_matcher "CBC and Xray ordered, cbc and CBC repeated" ["CBC"] ["Xray"]).2
    = Some ["Xray"].
Proof.
  split.
  - destruct (extract_tests_null_iff_no_match word_matcher "Metformin prescribed." [] [])
      as (_ & _ & _ & _ & Hempty).
    destruct (Hempty eq_refl eq_refl) as [_ Hnull].
    exact (Hnull word_matcher_no_patterns).
  - vm_compute. reflexivity.
Defined.

Example extract_tests_deduplicates :
  ∃ patho,
    (extract_tests word_matcher "CBC and Xray ordered, cbc and CBC repeated" ["CBC"] ["Xray"]).1
    = Some patho
    ∧ patho ≡ₚ ["CBC"; "cbc"].
Proof.
  exists ["cbc"; "CBC"]. split; [vm_compute; reflexivity|]. apply Permutation_swap.
Qed.

(** * Further properties *)

(** ** The normalizer, once more *)

Section NormalizerMore.

(** An induction that follows the cases of [sub_lower_upper]. *)
Lemma sub_lower_upper_cases (P : string → Prop) :
  P "" →
  (∀ c, P (String c "")) →
  (∀ c d r, Py.is_az c && Py.is_AZ d = true → P r → P (String c (String d r))) →
  (∀ c d r, Py.is_az c && Py.is_AZ d = false → P (String d r) → P (String c (String d r))) →
  ∀ s, P s.
Proof.
  intros Hnil Hone Hpair Hstep.
  assert (∀ s, P s ∧ ∀ c, P (String c s)) as Hboth; [|by intros s; apply Hboth].
  induction s as [|d r [IHr IHd]]; [by split|].
  split; [apply IHd|]. intros c.
  destruct (Py.is_az c && Py.is_AZ d) eqn:Hcd; [by apply Hpair|by apply Hstep].
Qed.

Lemma sub_lower_upper_pair c d r :
  sub_lower_upper (String c (String d r))
  = if Py.is_az c && Py.is_AZ d
    then String c (String "." (String " " (String d (sub_lower_upper r))))
    else String c (sub_lower_upper (String d r)).
Proof. done. Qed.

Lemma sub_lower_upper_head c r :
  ∃ r', sub_lower_upper (String c r) = String c r'.
Proof. simpl. destruct r as [|d r]; [eauto|]. destruct (_ && _); eauto. Qed.

Lemma is_AZ_not_az d : Py.is_AZ d = true → Py.is_az d = false.
Proof.
  unfold Py.is_AZ, Py.is_az, Py.in_range.
  rewrite andb_true_iff, andb_false_iff, !N.leb_le, !N.leb_gt. lia.
Qed.

Lemma is_az_not_space c : Py.is_az c = true → Py.isspace c = false.
Proof. destruct c as [[] [] [] [] [] [] [] []]; done. Qed.

Lemma no_case_pair_cons c s :
  no_case_pair (String c s)
  ↔ match s with
    | "" => True
    | String d _ => Py.is_az c && Py.is_AZ d = false
    end ∧ no_case_pair s.
Proof. done. Qed.

Lemma no_case_pair_sub_lower_upper s : no_case_pair (sub_lower_upper s).
Proof.
  induction s as [|c|c d r Hcd IH|c d r Hcd IH] using sub_lower_upper_cases; [done..| |].
  - rewrite sub_lower_upper_pair, Hcd.
    apply andb_true_iff in Hcd as [_ Hd]. apply is_AZ_not_az in Hd.
    rewrite !no_case_pair_cons. split_and!; [by rewrite andb_false_r|done|done| |done].
    destruct (sub_lower_upper r); [done|]. by rewrite Hd.
  - rewrite sub_lower_upper_pair, Hcd.
    destruct (sub_lower_upper_head d r) as [r' Hr']. rewrite Hr' in *.
    by rewrite no_case_pair_cons.
Qed.

Lemma no_case_pair_sub_spaces_from s : ∀ in_run,
  no_case_pair s → no_case_pair (sub_spaces_from in_run s).
Proof.
  induction s as [|c r IH]; intros in_run; [done|].
  rewrite no_case_pair_cons. intros [Hc Hr]. cbn [sub_spaces_from].
  destruct (Py.isspace c) eqn:Hsp.
  - destruct in_run; [by apply IH|]. rewrite no_case_pair_cons. split; [|by apply IH].
    by destruct (sub_spaces_from true r).
  - rewrite no_case_pair_cons. split; [|by apply IH].
    destruct r as [|d r']; [done|]. cbn [sub_spaces_from].
    destruct (Py.isspace d); [by rewrite andb_false_r|done].
Qed.

Lemma no_case_pair_lstrip s : no_case_pair s → no_case_pair (Py.lstrip s).
Proof.
  induction s as [|c r IH]; [done|]. intros Hs. cbn [Py.lstrip].
  destruct (Py.isspace c); [|done]. apply IH. by apply no_case_pair_cons in Hs as [_ ?].
Qed.

Lemma no_case_pair_rstrip s : no_case_pair s → no_case_pair (Py.rstrip s).
Proof.
  induction s as [|c r IH]; [done|].
  rewrite no_case_pair_cons. intros [Hc Hr]. specialize (IH Hr). cbn [Py.rstrip].
  destruct (Py.rstrip r) as [|d r'] eqn:Hrs.
  - by destruct (Py.isspace c).
  - rewrite no_case_pair_cons. split; [|done].
    destruct r as [|d0 r0]; [done|].
    destruct (rstrip_head d0 r0) as [E|[r'' E]]; rewrite E in Hrs; [done|].
    by simplify_eq.
Qed.

Lemma no_case_pair_clean_text t : no_case_pair (clean_text t).
Proof.
  unfold clean_text, Py.strip, sub_spaces.
  apply no_case_pair_rstrip, no_case_pair_lstrip, no_case_pair_sub_spaces_from,
    no_case_pair_sub_lower_upper.
Qed.

(** Each of the three steps leaves a text alone that has its shape. *)
Lemma sub_lower_upper_fixed s : no_case_pair s → sub_lower_upper s = s.
Proof.
  induction s as [|c r IH]; [done|].
  rewrite no_case_pair_cons. intros [Hc Hr]. cbn [sub_lower_upper].
  destruct r as [|d r']; [done|]. rewrite Hc. by rewrite IH.
Qed.

Lemma sub_spaces_from_fixed s :
  single_spaced s →
  sub_spaces_from false s = s ∧ (starts_clean s → sub_spaces_from true s = s).
Proof.
  induction s as [|c r IH]; [done|]. intros [Hc Hr].
  destruct (IH Hr) as [IHf IHt]. cbn [sub_spaces_from starts_clean].
  destruct (Py.isspace c) eqn:Hsp.
  - destruct (Hc eq_refl) as [-> Hclean]. split; [|done]. by rewrite IHt.
  - by rewrite IHf.
Qed.

Lemma lstrip_fixed s : starts_clean s → Py.lstrip s = s.
Proof. destruct s as [|c r]; [done|]. simpl. by intros ->. Qed.

Lemma rstrip_fixed s : ¬ has_trailing_space s → Py.rstrip s = s.
Proof.
  induction s as [|c r IH]; [done|]. intros Hs. cbn [Py.rstrip].
  destruct r as [|d r'].
  - cbn [Py.rstrip]. destruct (Py.isspace c) eqn:Hsp; [|done].
    destruct Hs. by exists "", c.
  - rewrite IH; [done|]. intros (r0 & x & Heq & Hx). apply Hs.
    exists (String c r0), x. split; [|done]. by rewrite Heq.
Qed.

Lemma starts_clean_iff s : starts_clean s ↔ ¬ has_leading_space s.
Proof.
  destruct s as [|c r]; simpl.
  - split; [|done]. by intros _ (? & ? & ? & _).
  - split.
    + intros Hc (c' & r' & Heq & Hc'). injection Heq as <- <-. congruence.
    + intros Hs. destruct (Py.isspace c) eqn:Hsp; [|done]. destruct Hs.
      by exists c, r.
Qed.

Lemma occurs_single_spaced c s :
  single_spaced s → occurs c s → Py.isspace c = true → c = " "%char.
Proof.
  induction s as [|d r IH]; [done|]. intros [Hd Hr] [->|Hin] Hc; [|by apply IH].
  by destruct (Hd Hc).
Qed.

(** White space only, before and after each step. *)
Lemma blank_sub_lower_upper s : blank (sub_lower_upper s) = blank s.
Proof.
  induction s as [|c|c d r Hcd IH|c d r Hcd IH] using sub_lower_upper_cases; [done..| |].
  - rewrite sub_lower_upper_pair, Hcd.
    apply andb_true_iff in Hcd as [Hc%is_az_not_space _].
    cbn [blank]. by rewrite Hc.
  - rewrite sub_lower_upper_pair, Hcd. cbn [blank] in *. by rewrite IH.
Qed.

Lemma sub_spaces_from_blank s : ∀ in_run,
  blank s = true → Py.lstrip (sub_spaces_from in_run s) = "".
Proof.
  induction s as [|c r IH]; intros in_run; [done|]. cbn [blank sub_spaces_from].
  intros [Hc Hr]%andb_true_iff. rewrite Hc. destruct in_run; [by apply IH|].
  change (Py.lstrip (sub_spaces_from true r) = ""). by apply IH.
Qed.

Lemma sub_spaces_from_ink s : ∀ in_run,
  blank s = false → Py.rstrip (Py.lstrip (sub_spaces_from in_run s)) ≠ "".
Proof.
  induction s as [|c r IH]; intros in_run; [done|]. cbn [blank sub_spaces_from].
  destruct (Py.isspace c) eqn:Hc; cbn [andb].
  - intros Hr. destruct in_run; [by apply IH|].
    change (Py.rstrip (Py.lstrip (sub_spaces_from true r)) ≠ ""). by apply IH.
  - intros _. cbn [Py.lstrip]. rewrite Hc. cbn [Py.rstrip].
    destruct (Py.rstrip _); [by rewrite Hc|done].
Qed.

End NormalizerMore.

(** X1. [clean_text] is idempotent: a text that has been cleaned is returned
    as it is. *)
Theorem clean_text_idempotent (t : string) :
  clean_text (clean_text t) = clean_text t.
Proof.
  destruct (clean_text_shape t) as (Hs & Hl & Hr).
  pose proof (no_case_pair_clean_text t) as Hp.
  unfold clean_text at 1. unfold sub_spaces, Py.strip.
  rewrite (sub_lower_upper_fixed _ Hp).
  rewrite (proj1 (sub_spaces_from_fixed _ Hs)).
  rewrite lstrip_fixed by by apply starts_clean_iff.
  by apply rstrip_fixed.
Qed.

(** X2. The only white-space character a cleaned text holds is the space:
    tabs, line ends and the other white-space characters are gone. *)
Theorem clean_text_spaces_only (t : string) (c : ascii) :
  occurs c (clean_text t) → Py.isspace c = true → c = " "%char.
Proof. apply occurs_single_spaced, clean_text_shape. Qed.

Lemma clean_text_spaces_only_witness :
  occurs " " (clean_text (String "a" (String "009" (String "010" "b"))))
  ∧ " "%char = " "%char.
Proof.
  assert (occurs " " (clean_text (String "a" (String "009" (String "010" "b")))))
    as Hocc by (right; by left).
  split; [exact Hocc|].
  exact (clean_text_spaces_only _ " " Hocc eq_refl).
Defined.

Section CasePairs.

Lemma is_az_not_AZ c : Py.is_az c = true → Py.is_AZ c = false.
Proof.
  unfold Py.is_AZ, Py.is_az, Py.in_range.
  rewrite andb_true_iff, andb_false_iff, !N.leb_le, !N.leb_gt. lia.
Qed.

Lemma is_AZ_not_space d : Py.is_AZ d = true → Py.isspace d = false.
Proof. destruct d as [[] [] [] [] [] [] [] []]; done. Qed.

Lemma string_app_assoc (a b c : string) : (a +:+ b) +:+ c = a +:+ (b +:+ c).
Proof. induction a as [|x a IH]; [done|]. by rewrite !app_cons, IH. Qed.

(** The first substitution works on the two sides of a character that is
    not of the class [[A-Z]] apart. *)
Lemma sub_lower_upper_app s1 c rest :
  Py.is_AZ c = false →
  sub_lower_upper (s1 +:+ String c rest)
  = sub_lower_upper s1 +:+ sub_lower_upper (String c rest).
Proof.
  intros Hc.
  induction s1 as [|x|x y r Hxy IH|x y r Hxy IH] using sub_lower_upper_cases.
  - done.
  - change (String x "" +:+ String c rest) with (String x (String c rest)).
    rewrite sub_lower_upper_pair, Hc, andb_false_r. done.
  - rewrite !app_cons, !sub_lower_upper_pair, Hxy, IH. done.
  - rewrite !app_cons, sub_lower_upper_pair, Hxy. rewrite <-app_cons, IH.
    by rewrite sub_lower_upper_pair, Hxy.
Qed.

Lemma sub_lower_upper_not_az d s2 :
  Py.is_az d = false → sub_lower_upper (String d s2) = String d (sub_lower_upper s2).
Proof.
  intros Hd. destruct s2 as [|e s2]; [done|].
  by rewrite sub_lower_upper_pair, Hd.
Qed.

(** The second substitution starts afresh at a character that is not white
    space. *)
Lemma sub_spaces_from_app text1 x text2 : ∀ in_run,
  Py.isspace x = false →
  sub_spaces_from in_run (text1 +:+ String x text2)
  = sub_spaces_from in_run text1 +:+ String x (sub_spaces_from false text2).
Proof.
  induction text1 as [|y text1 IH]; intros in_run Hx.
  - change ("" +:+ String x text2) with (String x text2).
    cbn [sub_spaces_from]. by rewrite Hx.
  - rewrite app_cons. cbn [sub_spaces_from].
    destruct (Py.isspace y); [destruct in_run|]; by rewrite ?app_cons, IH.
Qed.

Lemma lstrip_app_ink s c rest :
  Py.isspace c = false →
  Py.lstrip (s +:+ String c rest) = Py.lstrip (s +:+ String c "") +:+ rest.
Proof.
  intros Hc. induction s as [|y s IH].
  - change ("" +:+ String c rest) with (String c rest).
    change ("" +:+ String c "") with (String c "").
    cbn [Py.lstrip]. by rewrite Hc.
  - rewrite !app_cons. cbn [Py.lstrip]. destruct (Py.isspace y); [done|].
    by rewrite app_cons, string_app_assoc.
Qed.

Lemma lstrip_snoc_ink s c :
  Py.isspace c = false → ∃ kept, Py.lstrip (s +:+ String c "") = kept +:+ String c "".
Proof.
  intros Hc. induction s as [|y s IH].
  - exists "". change ("" +:+ String c "") with (String c "").
    cbn [Py.lstrip]. by rewrite Hc.
  - rewrite app_cons. cbn [Py.lstrip]. destruct (Py.isspace y); [done|].
    by exists (String y s).
Qed.

Lemma rstrip_ink d rest :
  Py.isspace d = false → ∃ kept, Py.rstrip (String d rest) = String d kept.
Proof.
  intros Hd. cbn [Py.rstrip]. destruct (Py.rstrip rest); [|eauto].
  rewrite Hd. eauto.
Qed.

Lemma rstrip_app_ink s d rest :
  Py.isspace d = false →
  Py.rstrip (s +:+ String d rest) = s +:+ Py.rstrip (String d rest).
Proof.
  intros Hd. destruct (rstrip_ink d rest Hd) as [kept Hkept].
  induction s as [|y s IH]; [done|].
  rewrite !app_cons.
  change (Py.rstrip (String y (s +:+ String d rest)))
    with (match Py.rstrip (s +:+ String d rest) with
          | "" => if Py.isspace y then "" else String y ""
          | kept' => String y kept'
          end).
  rewrite IH, Hkept. by destruct s.
Qed.

(** At a letter a to z followed by a letter A to Z the cleaned text is the
    cleaned text up to the first letter, a period and a space, and the
    cleaned text from the second letter on. *)
Lemma clean_text_split s1 c d s2 :
  Py.is_az c = true → Py.is_AZ d = true →
  clean_text (s1 +:+ String c (String d s2))
  = clean_text (s1 +:+ String c "") +:+ ". " +:+ clean_text (String d s2)
  ∧ (∃ kept, clean_text (s1 +:+ String c "") = kept +:+ String c "")
  ∧ (∃ kept, clean_text (String d s2) = String d kept).
Proof.
  intros Hc Hd.
  pose proof (is_az_not_AZ _ Hc) as HcAZ. pose proof (is_az_not_space _ Hc) as Hcsp.
  pose proof (is_AZ_not_az _ Hd) as Hdaz. pose proof (is_AZ_not_space _ Hd) as Hdsp.
  unfold clean_text, sub_spaces, Py.strip.
  rewrite !sub_lower_upper_app by done.
  rewrite sub_lower_upper_pair, Hc, Hd. cbn [andb].
  rewrite (sub_lower_upper_not_az d s2 Hdaz).
  change (sub_lower_upper (String c "")) with (String c "").
  rewrite !sub_spaces_from_app by done.
  set (G1 := sub_spaces_from false (sub_lower_upper s1)).
  set (G2 := sub_spaces_from false (sub_lower_upper s2)).
  change (sub_spaces_from false
            (String "." (String " " (String d (sub_lower_upper s2)))))
    with (String "." (String " " (sub_spaces_from true (String d (sub_lower_upper s2))))).
  cbn [sub_spaces_from]. rewrite Hdsp. fold G2.
  change (sub_spaces_from false "") with "".
  destruct (lstrip_snoc_ink G1 c Hcsp) as [kept Hkept].
  destruct (rstrip_ink d G2 Hdsp) as [kept2 Hkept2].
  assert (Py.lstrip (String d G2) = String d G2) as Hl2
    by (cbn [Py.lstrip]; by rewrite Hdsp).
  assert (Py.rstrip (kept +:+ String c "") = kept +:+ String c "") as Hr1.
  { rewrite rstrip_app_ink by done. cbn [Py.rstrip]. by rewrite Hcsp. }
  rewrite Hl2, (lstrip_app_ink G1 c _ Hcsp), Hkept, Hr1, Hkept2.
  split_and!; [|by exists kept|by exists kept2].
  rewrite string_app_assoc.
  change (String c "" +:+ String "." (String " " (String d G2)))
    with ((String c (String "." (String " " ""))) +:+ String d G2).
  rewrite <-string_app_assoc, rstrip_app_ink by done. rewrite Hkept2.
  rewrite !string_app_assoc. done.
Qed.

End CasePairs.

(** X3. Every letter a to z that a letter A to Z follows at once is parted
    from it by a period and a space: the cleaned text is then the cleaned
    text up to the first letter, which it ends with, the period and the
    space, and the cleaned text from the second letter on, which it begins
    with.  And no such pair of letters is left in a cleaned text. *)
Theorem clean_text_no_case_pair :
  (∀ t s1 s2 c d,
     clean_text t = s1 +:+ String c (String d s2) →
     Py.is_az c && Py.is_AZ d = false)
  ∧ (∀ s1 c d s2,
       Py.is_az c = true → Py.is_AZ d = true →
       clean_text (s1 +:+ String c (String d s2))
       = clean_text (s1 +:+ String c "") +:+ ". " +:+ clean_text (String d s2)
       ∧ (∃ kept, clean_text (s1 +:+ String c "") = kept +:+ String c "")
       ∧ (∃ kept, clean_text (String d s2) = String d kept)).
Proof.
  split; [|apply clean_text_split].
  intros t s1 s2 c d Heq. pose proof (no_case_pair_clean_text t) as Hp.
  rewrite Heq in Hp. clear Heq. induction s1 as [|x s1 IH].
  - by destruct Hp.
  - apply IH. by destruct Hp.
Qed.

Lemma clean_text_no_case_pair_witness :
  clean_text "take myDrug  daily" = "take my. Drug daily"
  ∧ Py.is_az "y" && Py.is_AZ "." = false.
Proof.
  split.
  - etrans.
    + exact (proj1 (proj2 clean_text_no_case_pair "take m" "y"%char "D"%char "rug  daily"
                      eq_refl eq_refl)).
    + reflexivity.
  - exact (proj1 clean_text_no_case_pair "take myDrug  daily" "take m" " Drug daily"
             "y"%char "."%char eq_refl).
Defined.

(** X4. The cleaned text is empty exactly when the text holds nothing but
    white space. *)
Theorem clean_text_empty_iff_blank (t : string) :
  clean_text t = "" ↔ blank t = true.
Proof.
  unfold clean_text, Py.strip, sub_spaces. split.
  - intros Hnil. destruct (blank t) eqn:Hb; [done|].
    rewrite <-blank_sub_lower_upper in Hb.
    by apply (sub_spaces_from_ink _ false) in Hb.
  - intros Hb. rewrite <-blank_sub_lower_upper in Hb.
    by rewrite (sub_spaces_from_blank _ false Hb).
Qed.

(** ** The merger, once more *)

Lemma merge_medication_entities_pass_equations :
  (∀ s n rest, start n = end_ s →
     merge_medication_entities (s :: n :: rest)
     = (label_ s, text s +:+ " " +:+ text n) :: merge_medication_entities rest)
  ∧ (∀ s n rest, start n ≠ end_ s →
       merge_medication_entities (s :: n :: rest)
       = (label_ s, text s) :: merge_medication_entities (n :: rest)).
Proof.
  split; intros s n rest Hadj; rewrite !merge_medication_entities_pass;
    cbn [adjacency_merge_pass]; by case_bool_decide.
Qed.

Section MergerMore.

(** An induction that follows the cases of the pass. *)
Lemma adjacency_merge_pass_cases (P : list Span → Prop) :
  P [] →
  (∀ s, P [s]) →
  (∀ s n rest, start n = end_ s → P rest → P (s :: n :: rest)) →
  (∀ s n rest, start n ≠ end_ s → P (n :: rest) → P (s :: n :: rest)) →
  ∀ spans, P spans.
Proof.
  intros Hnil Hone Hadj Hstep.
  assert (∀ spans, P spans ∧ ∀ s, P (s :: spans)) as Hboth; [|by intros l; apply Hboth].
  induction spans as [|n rest [IHr IHn]]; [by split|].
  split; [apply IHn|]. intros s.
  destruct (decide (start n = end_ s)); [by apply Hadj|by apply Hstep].
Qed.

Lemma merge_adjacent s n rest :
  start n = end_ s →
  merge_medication_entities (s :: n :: rest)
  = (label_ s, text s +:+ " " +:+ text n) :: merge_medication_entities rest.
Proof. apply (proj1 merge_medication_entities_pass_equations). Qed.

Lemma merge_apart s n rest :
  start n ≠ end_ s →
  merge_medication_entities (s :: n :: rest)
  = (label_ s, text s) :: merge_medication_entities (n :: rest).
Proof. apply (proj2 merge_medication_entities_pass_equations). Qed.

Lemma append_assoc (a b c : string) : (a +:+ b) +:+ c = a +:+ (b +:+ c).
Proof. induction a as [|x a IH]; [done|]. by rewrite !app_cons, IH. Qed.

Lemma join_cons sep x l : l ≠ [] → join sep (x :: l) = x +:+ sep +:+ join sep l.
Proof. by destruct l. Qed.

End MergerMore.

(** X5. The merger yields at most as many entities as there are spans and
    at least half as many; in particular it yields none only for no span. *)
Theorem merge_medication_entities_length (doc : list Span) :
  length (merge_medication_entities doc) ≤ length doc
  ∧ length doc ≤ 2 * length (merge_medication_entities doc).
Proof.
  induction doc as [|s|s n rest Hadj IH|s n rest Hadj IH]
    using adjacency_merge_pass_cases; [done|by cbn; lia|..].
  - rewrite merge_adjacent by done. cbn [length]. lia.
  - rewrite merge_apart by done. cbn [length] in *. lia.
Qed.

(** X6. When no span starts where the one before it ends, every span comes
    out as it is: one entity per span, with its label and its text. *)
Theorem merge_medication_entities_pass_through (doc : list Span) :
  no_adjacent doc →
  merge_medication_entities doc = (λ s, (label_ s, text s)) <$> doc.
Proof.
  induction doc as [|s rest IH]; [done|]. intros [Hs Hrest].
  destruct rest as [|n rest]; [done|].
  rewrite merge_apart by done. rewrite IH by done. done.
Qed.

Lemma merge_medication_entities_pass_through_witness :
  merge_medication_entities
    [mkSpan "DRUG" "Aspirin" 0 1; mkSpan "STRENGTH" "500mg" 2 3; mkSpan "ROUTE" "oral" 5 6]
  = [("DRUG", "Aspirin"); ("STRENGTH", "500mg"); ("ROUTE", "oral")].
Proof.
  refine (merge_medication_entities_pass_through
            [mkSpan "DRUG" "Aspirin" 0 1; mkSpan "STRENGTH" "500mg" 2 3;
             mkSpan "ROUTE" "oral" 5 6] _).
  cbn. split_and!; done.
Defined.

(** X7. The merger loses no text and keeps the order: the texts of the
    entities, joined by single spaces, are the texts of the spans joined by
    single spaces. *)
Theorem merge_medication_entities_text (doc : list Span) :
  join " " ((merge_medication_entities doc).*2) = join " " (text <$> doc).
Proof.
  induction doc as [|s|s n rest Hadj IH|s n rest Hadj IH]
    using adjacency_merge_pass_cases; [done..| |].
  - rewrite merge_adjacent by done. cbn [fmap list_fmap snd].
    destruct rest as [|m rest]; [done|].
    assert (merge_medication_entities (m :: rest) ≠ []) as Hne.
    { intros Hnil. pose proof (merge_medication_entities_length (m :: rest)) as [_ Hlen].
      rewrite Hnil in Hlen. cbn in Hlen. lia. }
    rewrite join_cons by by destruct (merge_medication_entities (m :: rest)).
    rewrite IH. rewrite !join_cons by done. by rewrite !append_assoc.
  - rewrite merge_apart by done. cbn [fmap list_fmap snd].
    assert (merge_medication_entities (n :: rest) ≠ []) as Hne.
    { intros Hnil. pose proof (merge_medication_entities_length (n :: rest)) as [_ Hlen].
      rewrite Hnil in Hlen. cbn in Hlen. lia. }
    rewrite join_cons by by destruct (merge_medication_entities (n :: rest)).
    rewrite IH. by rewrite join_cons.
Qed.


(** ** The term dictionary, once more *)

Section DictionaryMore.

Lemma occurs_lstrip c s : occurs c (Py.lstrip s) → occurs c s.
Proof.
  induction s as [|d r IH]; [done|]. cbn [Py.lstrip].
  destruct (Py.isspace d); [|done]. intros Hc. right. by apply IH.
Qed.

Lemma occurs_rstrip c s : occurs c (Py.rstrip s) → occurs c s.
Proof.
  induction s as [|d r IH]; [done|]. cbn [Py.rstrip].
  destruct (Py.rstrip r) as [|e r'].
  - destruct (Py.isspace d); [done|]. intros [->|[]]. by left.
  - intros [->|Hc]; [by left|]. right. by apply IH.
Qed.

Lemma occurs_strip c s : occurs c (Py.strip s) → occurs c s.
Proof. intros Hc. by apply occurs_lstrip, occurs_rstrip. Qed.

(** No piece holds the separator. *)
Lemma split_no_sep sep s piece : piece ∈ Py.split sep s → ¬ occurs sep piece.
Proof.
  revert piece. induction s as [|c r IH]; intros piece; cbn [Py.split].
  - intros ->%list_elem_of_singleton Hocc. exact Hocc.
  - case_decide as Hc.
    + intros [->|Hin]%elem_of_cons; [by intros Hocc|by apply IH].
    + pose proof (split_not_nil sep r) as Hne.
      destruct (Py.split sep r) as [|p ps]; [done|].
      intros [->|Hin]%elem_of_cons.
      * intros [->|Hp]; [done|]. eapply IH; [|done]. by left.
      * apply IH. by right.
Qed.

(** A text without the separator is its own single piece. *)
Lemma split_whole sep s : ¬ occurs sep s → Py.split sep s = [s].
Proof.
  induction s as [|c r IH]; [done|]. intros Hs. cbn [Py.split].
  rewrite decide_False by (intros ->; apply Hs; by left).
  rewrite IH; [done|]. intros Hr. apply Hs. by right.
Qed.

Lemma strip_strip s : Py.strip (Py.strip s) = Py.strip s.
Proof.
  unfold Py.strip at 1. rewrite lstrip_fixed.
  - apply rstrip_fixed, rstrip_no_trailing_space.
  - apply starts_clean_rstrip, lstrip_starts_clean.
Qed.

(** What every term of the dictionary is like. *)
Lemma all_terms_shape series term :
  term ∈ all_terms series → term ≠ "" ∧ Py.strip term = term ∧ ¬ occurs "," term.
Proof.
  intros (cell & piece & _ & Hpiece & -> & Hne)%elem_of_all_terms.
  split_and!; [done|apply strip_strip|].
  intros Hc%occurs_strip. by eapply split_no_sep.
Qed.

Lemma cell_terms_term term :
  term ≠ "" → Py.strip term = term → ¬ occurs "," term → cell_terms term = [term].
Proof.
  intros Hne Hstrip Hcomma. unfold cell_terms. rewrite split_whole by done.
  cbn [fmap list_fmap]. rewrite Hstrip. by rewrite filter_cons_True, filter_nil.
Qed.

Lemma all_terms_terms (terms : list string) :
  Forall (λ term, term ≠ "" ∧ Py.strip term = term ∧ ¬ occurs "," term) terms →
  all_terms (Some <$> terms) = terms.
Proof.
  unfold all_terms. induction 1 as [|term terms (Hne & Hstrip & Hcomma) _ IH]; [done|].
  cbn. cbn in IH. rewrite IH. by rewrite cell_terms_term.
Qed.

(** Sorting a list that is sorted already, and has no repetition. *)
Lemma sort_set_sorted (l : list string) :
  Sorted String.le l → NoDup l →
  merge_sort String.le (elements (list_to_set l : gset string)) = l.
Proof.
  intros Hsorted Hnodup. apply (Sorted_unique String.le); [|done|].
  - apply (Sorted_merge_sort String.le).
  - rewrite merge_sort_Permutation. by apply elements_list_to_set.
Qed.

Lemma expand_terms_shape series :
  Sorted String.le (expand_terms series) ∧ NoDup (expand_terms series)
  ∧ ∀ term, term ∈ expand_terms series ↔ term ∈ all_terms series.
Proof.
  split_and!.
  - apply (Sorted_merge_sort String.le).
  - rewrite expand_terms_Permutation. apply NoDup_elements.
  - intros term. by rewrite expand_terms_Permutation, elem_of_elements,
      elem_of_list_to_set.
Qed.

End DictionaryMore.

(** X9. Every term of a built dictionary is a non-empty text with no comma
    in it and no white space at either end. *)
Theorem expand_terms_term_shape (series : list (option string)) (term : string) :
  term ∈ expand_terms series →
  term ≠ "" ∧ Py.strip term = term ∧ ¬ occurs "," term.
Proof.
  intros Hin. apply (all_terms_shape series). by apply expand_terms_shape.
Qed.

Lemma expand_terms_term_shape_witness :
  "chest Xray" ∈ expand_terms [Some " MRI ,, chest Xray "; None]
  ∧ Py.strip "chest Xray" = "chest Xray".
Proof.
  assert ("chest Xray" ∈ expand_terms [Some " MRI ,, chest Xray "; None]) as Hin.
  { vm_compute. apply list_elem_of_further, list_elem_of_here. }
  split; [exact Hin|].
  exact (proj1 (proj2 (expand_terms_term_shape _ _ Hin))).
Defined.

(** X10. Building a dictionary from the terms of a built dictionary, one
    term per cell, gives that dictionary back. *)
Theorem expand_terms_again (series : list (option string)) :
  expand_terms (Some <$> expand_terms series) = expand_terms series.
Proof.
  destruct (expand_terms_shape series) as (Hsorted & Hnodup & Hiff).
  unfold expand_terms at 1. rewrite all_terms_terms.
  - by apply sort_set_sorted.
  - apply Forall_forall. intros term Hin. by eapply expand_terms_term_shape.
Qed.

(** X11. The dictionary depends only on which non-null cells occur: the
    order of the rows, repeated rows and null rows make no difference. *)
Theorem expand_terms_rows_as_set (series1 series2 : list (option string)) :
  (∀ cell, Some cell ∈ series1 ↔ Some cell ∈ series2) →
  expand_terms series1 = expand_terms series2.
Proof.
  intros Hcells. unfold expand_terms. f_equal. f_equal. apply set_eq. intros term.
  rewrite !elem_of_list_to_set, !elem_of_all_terms.
  split; intros (cell & piece & Hin & Hrest); exists cell, piece;
    (split; [by apply Hcells|done]).
Qed.

Lemma expand_terms_rows_as_set_witness :
  expand_terms [Some "MRI, CT"; None; Some "Xray"; Some "MRI, CT"]
  = expand_terms [Some "Xray"; Some "MRI, CT"].
Proof.
  apply expand_terms_rows_as_set. intros cell.
  rewrite !elem_of_cons, !elem_of_nil. split.
  - intros [H|[H|[H|[H|[]]]]]; [by right; left|discriminate H|by left|by right; left].
  - intros [H|[H|[]]]; [by right; right; left|by left].
Defined.

(** ** [extract_medications], once more *)

Section MedicationsMore.

Implicit Types (st : assembly) (meds : list (gmap string string)).
Implicit Types (ent : string * string) (ents : list (string * string)).

Lemma alter_lookup_insert {A} (f : A → A) (l : list A) i x :
  l !! i = Some x → alter f i l = <[i := f x]> l.
Proof.
  intros Hi. apply list_eq. intros j. destruct (decide (i = j)) as [<-|Hne].
  - rewrite list_lookup_alter_eq, Hi. cbn.
    by rewrite list_lookup_insert_eq by by eapply lookup_lt_Some.
  - by rewrite list_lookup_alter_ne, list_lookup_insert_ne.
Qed.

(** From the initial state an iteration that raises nothing either changes
    nothing or binds [current_med]. *)
Lemma step_initial ent st' :
  step initial ent = Ok st' →
  (st' = initial ∧ valid_drug ent = None) ∨ ∃ o, current_med st' = Bound o.
Proof.
  destruct ent as [label ent_text]. unfold step, valid_drug. cbn [fst snd initial current_med].
  repeat case_decide; try done.
  - intros Hok; injection Hok as <-. by left.
  - cbn. intros Hok; injection Hok as <-. right. unfold append_new. cbn. eauto.
  - intros Hok; injection Hok as <-. by left.
Qed.

(** Where a call that raises has stopped. *)
Lemma assemble_initial_Raise ents e :
  assemble initial ents = Raise e →
  ∃ pre label value post,
    ents = pre ++ (label, value) :: post
    ∧ valid_drugs pre = [] ∧ label ∈ ATTRIBUTE_LABELS.
Proof.
  induction ents as [|ent ents IH]; [done|]. rewrite assemble_cons.
  destruct (step initial ent) as [st1|e1] eqn:Hstep; cbn [mbind result_bind].
  - destruct (step_initial _ _ Hstep) as [[-> Hnone]|Hbound].
    + intros (pre & label & value & post & -> & Hpre & Hattr)%IH.
      exists (ent :: pre), label, value, post. split_and!; [done| |done].
      rewrite valid_drugs_cons, Hnone. done.
    + destruct (assemble_bound ents st1 Hbound) as (st2 & -> & _). done.
  - intros _. apply step_Raise in Hstep as (_ & Hattr & _).
    destruct ent as [label value]. by exists [], label, value, ents.
Qed.

(** The record [current_med] is bound to once a valid DRUG entity was met. *)
Lemma assemble_current_record ents st :
  assemble initial ents = Ok st → valid_drugs ents ≠ [] →
  ∃ i m, current_med st = Bound (Some i) ∧ medications st !! i = Some m
         ∧ Some (Py.lower (get_drug m)) = last (valid_drugs ents).
Proof.
  intros Hloop Hsome. destruct st as [meds cur].
  destruct (assemble_wf _ _ _ wf_initial Hloop) as (_ & _ & Hname).
  unfold current_name in Hname. cbn [medications current_med initial] in *.
  destruct (last (valid_drugs ents)) as [x|] eqn:Hlast; [|by apply last_None in Hlast].
  destruct cur as [|[i|]]; [done| |done].
  unfold lowered_drugs in Hname. rewrite list_lookup_fmap in Hname.
  destruct (meds !! i) as [m|] eqn:Hm; [|done]. by exists i, m.
Qed.

(** The state a returning loop ends in when it met no valid DRUG entity. *)
Lemma assemble_initial_no_drug ents st :
  assemble initial ents = Ok st → valid_drugs ents = [] → st = initial.
Proof.
  intros Hloop Hnone. destruct (assemble_no_valid_drug ents Hnone) as [H|H];
    rewrite H in Hloop; by simplify_eq.
Qed.

(** [first_mentions_from] looks at [seen] as a set. *)
Lemma first_mentions_from_ext ents : ∀ seen1 seen2,
  (∀ x, x ∈ seen1 ↔ x ∈ seen2) →
  first_mentions_from seen1 ents = first_mentions_from seen2 ents.
Proof.
  induction ents as [|ent ents IH]; intros seen1 seen2 Hseen; [done|].
  cbn [first_mentions_from]. destruct (valid_drug ent) as [x|]; [|by apply IH].
  destruct (decide (x ∈ seen1)) as [H1|H1].
  - rewrite decide_True by by apply Hseen. by apply IH.
  - rewrite decide_False by by rewrite <-Hseen. f_equal. apply IH.
    intros y. rewrite !elem_of_cons, Hseen. done.
Qed.

Lemma step_drug_fields st ent st' :
  wf_assembly st → step st ent = Ok st' →
  drug_fields (medications st')
  = drug_fields (medications st)
    ++ match valid_drug ent with
       | Some x => if decide (x ∈ lowered_drugs (medications st)) then []
                   else [Some (Py.strip ent.2)]
       | None => []
       end.
Proof.
  intros Hwf. destruct ent as [label ent_text]. unfold step, valid_drug. cbn [fst snd].
  destruct (decide (label = "DRUG")) as [->|Hlabel].
  - destruct (decide (Py.lower (Py.strip ent_text) ∈ INVALID_DRUGS)) as [Hbad|Hgood].
    { intros Hok; injection Hok as <-. by rewrite app_nil_r. }
    destruct (find_existing _ _) as [[i existing]|] eqn:Hfind.
    + destruct (find_existing_not_empty _ _ _ _ Hwf Hfind) as (Hne & _ & Hin).
      rewrite decide_False by done. intros Hok; injection Hok as <-.
      cbn [medications]. rewrite decide_True by done. by rewrite app_nil_r.
    + intros Hok; injection Hok as <-. unfold append_new. cbn [medications].
      rewrite decide_False.
      * unfold drug_fields. rewrite fmap_app. cbn. by rewrite lookup_singleton_eq.
      * apply list_find_None in Hfind. rewrite Forall_forall in Hfind.
        intros (m & Hm & Hin)%list_elem_of_fmap. by apply (Hfind m).
  - destruct (decide (label ∈ ATTRIBUTE_LABELS)) as [Hattr|_].
    + destruct (current_med st) as [|[i|]]; [done| |].
      * intros Hok; injection Hok as <-. cbn [medications].
        rewrite drug_fields_alter by by apply attribute_key_not_drug.
        by rewrite app_nil_r.
      * intros Hok; injection Hok as <-. by rewrite app_nil_r.
    + intros Hok; injection Hok as <-. by rewrite app_nil_r.
Qed.

Lemma assemble_drug_fields ents : ∀ st st',
  wf_assembly st → assemble st ents = Ok st' →
  drug_fields (medications st')
  = drug_fields (medications st)
    ++ (Some <$> first_mentions_from (lowered_drugs (medications st)) ents).
Proof.
  induction ents as [|ent ents IH]; intros st st' Hwf.
  { cbn. intros Hok; injection Hok as <-. by rewrite app_nil_r. }
  rewrite assemble_cons.
  destruct (step st ent) as [st1|e] eqn:Hstep; cbn [mbind result_bind]; [|done].
  intros Hloop.
  destruct (step_wf _ _ _ Hwf Hstep) as (Hwf1 & Hnames1 & _).
  rewrite (IH _ _ Hwf1 Hloop), (step_drug_fields _ _ _ Hwf Hstep).
  rewrite <-app_assoc. f_equal. cbn [first_mentions_from].
  destruct (valid_drug ent) as [x|] eqn:Hvalid.
  - destruct (decide (x ∈ lowered_drugs (medications st))) as [Hin|Hnotin].
    + cbn [app]. f_equal. apply first_mentions_from_ext. intros y.
      rewrite Hnames1. split; [|by left]. intros [?|Heq]; [done|by simplify_eq].
    + cbn [app fmap list_fmap]. f_equal. f_equal.
      apply first_mentions_from_ext. intros y. rewrite Hnames1, elem_of_cons.
      split; [intros [?|?]; [by right|left; congruence]
             |intros [?|?]; [right; congruence|by left]].
  - cbn [app]. f_equal. apply first_mentions_from_ext. intros y.
    rewrite Hnames1. split; [|by left]. by intros [?|?].
Qed.

(** The keys a record can have. *)
Lemma step_keys st ent st' :
  let keys m := ∀ key, is_Some (m !! key) →
                  key = "drug" ∨ key ∈ Py.lower <$> ATTRIBUTE_LABELS in
  Forall keys (medications st) → step st ent = Ok st' →
  Forall keys (medications st').
Proof.
  intros keys Hkeys. destruct ent as [label ent_text]. unfold step.
  assert (keys {[ "drug" := Py.strip ent_text ]}) as Hnew.
  { intros key [v Hv]. left. apply lookup_singleton_Some in Hv as [<- _]. done. }
  repeat case_decide.
  - by intros Hok; injection Hok as <-.
  - destruct (find_existing _ _) as [[i existing]|]; [case_decide|];
      intros Hok; injection Hok as <-; unfold append_new; cbn [medications];
      try done; (apply Forall_app; split; [done|by apply Forall_singleton]).
  - destruct (current_med st) as [|[i|]]; [done| |];
      intros Hok; injection Hok as <-; [|done]. cbn [medications].
    apply Forall_alter; [done|]. intros m _ Hm key.
    destruct (decide (key = Py.lower label)) as [->|Hne].
    + intros _. right. by apply list_elem_of_fmap_2.
    + rewrite lookup_insert_ne by done. apply Hm.
  - by intros Hok; injection Hok as <-.
Qed.

Lemma assemble_keys ents : ∀ st st',
  let keys m := ∀ key, is_Some (m !! key) →
                  key = "drug" ∨ key ∈ Py.lower <$> ATTRIBUTE_LABELS in
  Forall keys (medications st) → assemble st ents = Ok st' →
  Forall keys (medications st').
Proof.
  induction ents as [|ent ents IH]; intros st st' keys Hkeys.
  { cbn. by intros Hok; injection Hok as <-. }
  rewrite assemble_cons.
  destruct (step st ent) as [st1|e] eqn:Hstep; cbn [mbind result_bind]; [|done].
  apply IH. by eapply step_keys.
Qed.

End MedicationsMore.

(** X12. The one exception a call raises is [UnboundLocalError] for
    [current_med], and it raises it exactly when an entity with an attribute
    label comes before every valid DRUG entity. *)
Theorem extract_medications_raises_iff (nlp_med7 : string → list Span) (text : string) :
  (∀ e, extract_medications nlp_med7 text = Raise e → e = UnboundLocalError "current_med")
  ∧ (extract_medications nlp_med7 text = Raise (UnboundLocalError "current_med")
     ↔ ∃ pre label value post,
         merge_medication_entities (nlp_med7 (clean_text text))
         = pre ++ (label, value) :: post
         ∧ valid_drugs pre = [] ∧ label ∈ ATTRIBUTE_LABELS).
Proof.
  unfold extract_medications, medications_of.
  set (ents := merge_medication_entities (nlp_med7 (clean_text text))).
  split; [|split].
  - intros e. destruct (assemble initial ents) as [st|e'] eqn:Hloop; [done|].
    cbn [mbind result_bind]. intros Hr; injection Hr as <-. by eapply assemble_Raise.
  - destruct (assemble initial ents) as [st|e'] eqn:Hloop; [done|].
    intros _. by eapply assemble_initial_Raise.
  - intros (pre & label & value & post & -> & Hpre & Hattr).
    by apply medications_of_orphan_attribute.
Qed.

Lemma extract_medications_raises_iff_witness :
  extract_medications
    (labeler_of [mkSpan "DRUG" "generic" 0 1; mkSpan "FORM" "tablet" 2 3;
                 mkSpan "DRUG" "Aspirin" 4 5]) "generic tablet, Aspirin"
  = Raise (UnboundLocalError "current_med").
Proof.
  apply (proj2 (extract_medications_raises_iff _ _)).
  exists [("DRUG", "generic")], "FORM", "tablet", [("DRUG", "Aspirin")].
  split_and!; [reflexivity|reflexivity|].
  do 1 apply list_elem_of_further. apply list_elem_of_here.
Defined.

(** X13. A call that returns never returns an empty list, and returns null
    exactly when no entity is a valid DRUG entity. *)
Theorem extract_medications_returned_null_iff
    (nlp_med7 : string → list Span) (text : string)
    (r : option (list (gmap string string))) :
  extract_medications nlp_med7 text = Ok r →
  r ≠ Some []
  ∧ (r = None ↔ valid_drugs (merge_medication_entities (nlp_med7 (clean_text text))) = []).
Proof.
  intros Hr. destruct (medications_of_returned _ _ Hr) as (? & ? & _). done.
Qed.

Lemma extract_medications_returned_null_iff_witness :
  extract_medications
    (labeler_of [mkSpan "DRUG" "Generic" 0 1; mkSpan "DRUG" "GENERIC" 2 3]) "Generic or GENERIC"
  = Ok None
  ∧ valid_drugs [("DRUG", "Generic"); ("DRUG", "GENERIC")] = [].
Proof.
  assert (extract_medications
            (labeler_of [mkSpan "DRUG" "Generic" 0 1; mkSpan "DRUG" "GENERIC" 2 3])
            "Generic or GENERIC" = Ok None) as Hrun by (vm_compute; reflexivity).
  split; [exact Hrun|].
  exact (proj1 (proj2 (extract_medications_returned_null_iff _ _ _ Hrun)) eq_refl).
Defined.

(** X14. The records come in the order in which their drugs are first
    mentioned, and each record has as its drug the stripped text of that
    first mention: later mentions in another case or with white space around
    them do not change it. *)
Theorem extract_medications_first_mentions
    (nlp_med7 : string → list Span) (text : string)
    (r : option (list (gmap string string))) :
  extract_medications nlp_med7 text = Ok r →
  drug_fields (default [] r)
  = Some <$> first_mentions (merge_medication_entities (nlp_med7 (clean_text text))).
Proof.
  intros (st & Hloop & ->)%medications_of_Ok.
  assert (default [] (or_None (medications st)) = medications st) as ->
    by by destruct (medications st).
  by rewrite (assemble_drug_fields _ _ _ wf_initial Hloop).
Qed.

Lemma extract_medications_first_mentions_witness :
  drug_fields
    (default []
       (Some [ {[ "drug" := "Zinc" ]}; <["form" := "tablet"]> {[ "drug" := "Aspirin" ]} ]))
  = [Some "Zinc"; Some "Aspirin"].
Proof.
  refine (extract_medications_first_mentions
            (labeler_of [mkSpan "DRUG" "Zinc" 0 1; mkSpan "DRUG" "Aspirin" 2 3;
                         mkSpan "DRUG" " ASPIRIN " 4 5; mkSpan "FORM" "tablet" 6 7;
                         mkSpan "DRUG" "zinc" 8 9]) "Zinc, Aspirin, ASPIRIN tablet, zinc"
            _ _).
  vm_compute. reflexivity.
Defined.

(** X15. A record has no other keys than [drug] and the six attribute labels
    in lower case. *)
Theorem extract_medications_record_keys
    (nlp_med7 : string → list Span) (text : string)
    (meds : list (gmap string string)) (m : gmap string string) (key : string) :
  extract_medications nlp_med7 text = Ok (Some meds) →
  m ∈ meds → is_Some (m !! key) →
  key ∈ ["drug"; "strength"; "form"; "dosage"; "route"; "frequency"; "duration"].
Proof.
  intros (st & Hloop & Hr)%medications_of_Ok Hm Hkey.
  symmetry in Hr. apply or_None_Some in Hr as [-> _].
  pose proof (assemble_keys _ initial _ (Forall_nil_2 _) Hloop) as Hkeys.
  rewrite Forall_forall in Hkeys.
  destruct (Hkeys m Hm key Hkey) as [->|Hattr]; [apply list_elem_of_here|].
  by apply list_elem_of_further.
Qed.

Lemma extract_medications_record_keys_witness :
  "route" ∈ ["drug"; "strength"; "form"; "dosage"; "route"; "frequency"; "duration"].
Proof.
  refine (extract_medications_record_keys
            (labeler_of [mkSpan "DRUG" "Aspirin" 0 1; mkSpan "ROUTE" "oral" 2 3])
            "Aspirin, oral" [ <["route" := "oral"]> {[ "drug" := "Aspirin" ]} ]
            (<["route" := "oral"]> {[ "drug" := "Aspirin" ]}) "route" _ _ _).
  - vm_compute. reflexivity.
  - apply list_elem_of_here.
  - exists "oral". apply lookup_insert_eq.
Defined.

(** X16. An attribute entity at the end of a sequence is stored, under its
    label in lower case, in the record of the last valid DRUG entity of the
    sequence, wherever that record stands in the list; it replaces what the
    record held under that key and changes nothing else. *)
Theorem medications_of_attribute_last
    (ents : list (string * string)) (label value : string)
    (meds : list (gmap string string)) :
  medications_of ents = Ok (Some meds) →
  label ∈ ATTRIBUTE_LABELS →
  ∃ i m,
    meds !! i = Some m
    ∧ Some (Py.lower (get_drug m)) = last (valid_drugs ents)
    ∧ medications_of (ents ++ [(label, value)])
      = Ok (Some (<[i := <[Py.lower label := value]> m]> meds)).
Proof.
  intros Hr Hattr.
  destruct (medications_of_returned _ _ Hr) as (_ & Hnone & _).
  destruct (medications_of_Ok _ _ Hr) as (st & Hloop & Hmeds).
  symmetry in Hmeds. apply or_None_Some in Hmeds as [-> Hne].
  destruct (assemble_current_record ents st Hloop) as (i & m & Hcur & Hm & Hlast).
  { intros Hnil. by apply Hnone in Hnil. }
  exists i, m. split_and!; [done..|].
  unfold medications_of. rewrite assemble_app, Hloop. cbn [mbind result_bind].
  destruct st as [meds cur]. cbn [medications current_med] in *. subst cur.
  rewrite assemble_cons, step_attribute by done.
  cbn [mbind result_bind assemble medications].
  rewrite (alter_lookup_insert _ _ _ _ Hm).
  destruct meds as [|m0 meds]; [done|]. by destruct i.
Qed.

Lemma medications_of_attribute_last_witness :
  ∃ i m,
    [ <["form" := "tablet"]> {[ "drug" := "Zinc" ]}; {[ "drug" := "Aspirin" ]} ] !! i = Some m
    ∧ Some (Py.lower (get_drug m))
      = last (valid_drugs [("DRUG", "Zinc"); ("FORM", "tablet"); ("DRUG", "Aspirin");
                           ("DRUG", "ZINC")])
    ∧ medications_of
        ([("DRUG", "Zinc"); ("FORM", "tablet"); ("DRUG", "Aspirin"); ("DRUG", "ZINC")]
         ++ [("FORM", "capsule")])
      = Ok (Some (<[i := <[Py.lower "FORM" := "capsule"]> m]>
                    [ <["form" := "tablet"]> {[ "drug" := "Zinc" ]};
                      {[ "drug" := "Aspirin" ]} ])).
Proof.
  refine (medications_of_attribute_last
            [("DRUG", "Zinc"); ("FORM", "tablet"); ("DRUG", "Aspirin"); ("DRUG", "ZINC")]
            "FORM" "capsule" _ _ _).
  - vm_compute. reflexivity.
  - do 1 apply list_elem_of_further. apply list_elem_of_here.
Defined.

(** X17. A DRUG entity at the end of a sequence leaves the records as they
    are when its name is blocked or, up to case, the name of a record, and
    adds a record with nothing but its stripped text as [drug], at the end
    of the list, otherwise. *)
Theorem medications_of_drug_last
    (ents : list (string * string)) (ent_text : string)
    (r : option (list (gmap string string))) :
  medications_of ents = Ok r →
  medications_of (ents ++ [("DRUG", ent_text)])
  = Ok (if decide (Py.lower (Py.strip ent_text) ∈ INVALID_DRUGS) then r
        else if decide (Py.lower (Py.strip ent_text) ∈ lowered_drugs (default [] r)) then r
        else Some (default [] r ++ [ {[ "drug" := Py.strip ent_text ]} ])).
Proof.
  intros (st & Hloop & ->)%medications_of_Ok.
  destruct (assemble_wf _ _ _ wf_initial Hloop) as (Hwf & _ & _).
  assert (default [] (or_None (medications st)) = medications st) as ->
    by by destruct (medications st).
  unfold medications_of. rewrite assemble_app, Hloop. cbn [mbind result_bind].
  rewrite assemble_cons.
  destruct (decide (Py.lower (Py.strip ent_text) ∈ INVALID_DRUGS)) as [Hbad|Hgood].
  { by rewrite step_invalid_drug. }
  destruct (find_existing (medications st) (Py.strip ent_text)) as [[i existing]|] eqn:Hfind.
  - destruct (find_existing_not_empty _ _ _ _ Hwf Hfind) as (_ & _ & Hin).
    rewrite (step_resume_drug _ _ _ _ Hwf Hgood Hfind). by rewrite decide_True.
  - rewrite (step_new_drug _ _ Hgood Hfind). rewrite decide_False.
    + unfold append_new. cbn. by destruct (medications st).
    + apply list_find_None in Hfind. rewrite Forall_forall in Hfind.
      intros (m & Hm & Hin)%list_elem_of_fmap. by apply (Hfind m).
Qed.

Lemma medications_of_drug_last_witness :
  medications_of ([("DRUG", "Zinc"); ("FORM", "tablet")] ++ [("DRUG", " Aspirin ")])
  = Ok (Some [ <["form" := "tablet"]> {[ "drug" := "Zinc" ]}; {[ "drug" := "Aspirin" ]} ]).
Proof.
  etrans.
  - refine (medications_of_drug_last [("DRUG", "Zinc"); ("FORM", "tablet")] " Aspirin "
              (Some [ <["form" := "tablet"]> {[ "drug" := "Zinc" ]} ]) _).
    vm_compute. reflexivity.
  - vm_compute. reflexivity.
Defined.

(** ** [extract_tests], once more *)

Lemma word_matcher_keys patterns cleaned_text label s :
  (label, s) ∈ word_matcher patterns cleaned_text → label ∈ patterns.*1.
Proof.
  unfold word_matcher. intros (word & Hin & _)%list_elem_of_bind.
  apply list_elem_of_omap in Hin as (pattern & Hpattern & Hsome).
  case_decide; [|done]. injection Hsome as <- _.
  by apply list_elem_of_fmap_2.
Qed.

(** X18. When the matcher reports matches under the keys added to it only, a
    side whose term list is empty is null, whatever the other side has. *)
Theorem extract_tests_no_terms_null
    (phrase_matcher : list (string * list string) → string → list (string * string))
    (text : string) (pathology_terms radiology_terms : list string) :
  (∀ patterns cleaned_text label s,
     (label, s) ∈ phrase_matcher patterns cleaned_text → label ∈ patterns.*1) →
  (pathology_terms = [] →
   (extract_tests phrase_matcher text pathology_terms radiology_terms).1 = None)
  ∧ (radiology_terms = [] →
     (extract_tests phrase_matcher text pathology_terms radiology_terms).2 = None).
Proof.
  intros Hkeys. unfold extract_tests. rewrite bucket_labelled. cbn [app fst snd].
  assert (∀ label, label ∉ (added_patterns pathology_terms radiology_terms).*1 →
            labelled label (phrase_matcher (added_patterns pathology_terms radiology_terms)
                              (clean_text text)) = []) as Hnone.
  { intros label Hlabel. unfold labelled. apply elem_of_nil_inv. intros s.
    rewrite list_elem_of_fmap. intros ([l s'] & _ & [Hl Hm]%list_elem_of_filter).
    cbn in Hl. subst l. by apply Hkeys in Hm. }
  split; intros ->; apply or_None_set_None, Hnone.
  - destruct radiology_terms; cbn; [by intros ?%elem_of_nil|].
    by intros [=]%list_elem_of_singleton.
  - destruct pathology_terms; cbn; [by intros ?%elem_of_nil|].
    by intros [=]%list_elem_of_singleton.
Qed.

Lemma extract_tests_no_terms_null_witness :
  (extract_tests word_matcher "CBC and Xray ordered" [] ["Xray"]).1 = None.
Proof.
  exact (proj1 (extract_tests_no_terms_null word_matcher "CBC and Xray ordered" [] ["Xray"]
                  word_matcher_keys) eq_refl).
Defined.

(** ** The endpoint *)

Section EndpointMore.

Lemma lower_empty_iff s : Py.lower s = "" ↔ s = "".
Proof. by destruct s. Qed.

Lemma blank_lstrip s : blank (Py.lstrip s) = blank s.
Proof.
  induction s as [|c r IH]; [done|]. cbn [Py.lstrip blank].
  destruct (Py.isspace c) eqn:Hc; [done|]. cbn [blank]. by rewrite Hc.
Qed.

Lemma rstrip_empty_iff s : Py.rstrip s = "" ↔ blank s = true.
Proof.
  induction s as [|c r IH]; [done|]. cbn [Py.rstrip blank].
  rewrite andb_true_iff, <-IH.
  destruct (Py.rstrip r); [|by split; [|intros [_ ?]]].
  destruct (Py.isspace c); by split; [|intros [? _]].
Qed.

Lemma strip_empty_iff s : Py.strip s = "" ↔ blank s = true.
Proof. unfold Py.strip. by rewrite rstrip_empty_iff, blank_lstrip. Qed.

(** The key the view looks up is empty exactly for a blank parameter. *)
Lemma key_empty_iff s : Py.lower (Py.strip s) = "" ↔ blank s = true.
Proof. by rewrite lower_empty_iff, strip_empty_iff. Qed.

Lemma filter_first_match {A} (P : A → Prop) `{!∀ x, Decision (P x)} pre x post :
  Forall (λ y, ¬ P y) pre → P x →
  filter P (pre ++ x :: post) = x :: filter P post.
Proof.
  intros Hpre Hx. rewrite filter_app, filter_cons_True by done.
  induction Hpre as [|y pre Hy _ IH]; [done|]. by rewrite filter_cons_False.
Qed.

End EndpointMore.

(** X19. The view answers with status 400 and its fixed message exactly when
    the parameter [disease_name] is missing, empty or white space only; it
    then consults neither the table nor the extractors. *)
Theorem extract_info_get_400_iff_blank
    (nlp_med7 : string → list Span)
    (phrase_matcher : list (string * list string) → string → list (string * string))
    (df_disease : list DiseaseRow) (pathology_column radiology_column : list (option string))
    (arg : option string) :
  (blank (default "" arg) = true →
   extract_info_get nlp_med7 phrase_matcher df_disease pathology_column radiology_column arg
   = Ok (ErrorResponse "Please provide a disease_name using ?disease_name=<name>" 400))
  ∧ (∀ error,
       extract_info_get nlp_med7 phrase_matcher df_disease pathology_column radiology_column arg
       = Ok (ErrorResponse error 400) →
       blank (default "" arg) = true).
Proof.
  unfold extract_info_get. split.
  - intros Hblank%key_empty_iff. by rewrite decide_True.
  - intros error. case_decide as Hkey; [intros _; by apply key_empty_iff|].
    case_decide as Hstr; [done|].
    destruct (filter _ df_disease) as [|row rows]; [by intros [=]|].
    destruct (extract_medications _ _); cbn [mbind result_bind]; [|done].
    by destruct (extract_tests _ _ _ _).
Qed.

Lemma extract_info_get_400_iff_blank_witness :
  extract_info_get (labeler_of []) word_matcher
    [mkRow (Some "Asthma") (Some "Salbutamol inhaler.")] [Some "CBC"] [Some "Xray"]
    (Some (String "009" "  "))
  = Ok (ErrorResponse "Please provide a disease_name using ?disease_name=<name>" 400)
  ∧ extract_info_get (labeler_of []) word_matcher
      [mkRow (Some "Asthma") (Some "Salbutamol inhaler.")] [Some "CBC"] [Some "Xray"] None
    = Ok (ErrorResponse "Please provide a disease_name using ?disease_name=<name>" 400).
Proof.
  split.
  - exact (proj1 (extract_info_get_400_iff_blank (labeler_of []) word_matcher
                    [mkRow (Some "Asthma") (Some "Salbutamol inhaler.")]
                    [Some "CBC"] [Some "Xray"] (Some (String "009" "  "))) eq_refl).
  - exact (proj1 (extract_info_get_400_iff_blank (labeler_of []) word_matcher
                    [mkRow (Some "Asthma") (Some "Salbutamol inhaler.")]
                    [Some "CBC"] [Some "Xray"] None) eq_refl).
Defined.

(** X20. For a parameter that is not blank: when the table has rows and no
    disease cell of it holds a text, the [.str] accessor raises
    [AttributeError] and the view fails; otherwise the view answers with
    status 404 exactly when no row of the table has, up to case, the
    stripped parameter as its disease, and the message then names the
    parameter stripped and in lower case. *)
Theorem extract_info_get_404_iff_no_row
    (nlp_med7 : string → list Span)
    (phrase_matcher : list (string * list string) → string → list (string * string))
    (df_disease : list DiseaseRow) (pathology_column radiology_column : list (option string))
    (arg : option string) :
  blank (default "" arg) = false →
  (no_str_accessor df_disease →
   extract_info_get nlp_med7 phrase_matcher df_disease pathology_column radiology_column arg
   = Raise AttributeError)
  ∧ (¬ no_str_accessor df_disease →
     Forall (λ row, ¬ row_matches (Py.lower (Py.strip (default "" arg))) row) df_disease →
     extract_info_get nlp_med7 phrase_matcher df_disease pathology_column radiology_column arg
     = Ok (ErrorResponse
             ("Disease '" +:+ Py.lower (Py.strip (default "" arg)) +:+ "' not found") 404))
  ∧ (∀ error,
       extract_info_get nlp_med7 phrase_matcher df_disease pathology_column radiology_column arg
       = Ok (ErrorResponse error 404) →
       ¬ no_str_accessor df_disease
       ∧ Forall (λ row, ¬ row_matches (Py.lower (Py.strip (default "" arg))) row) df_disease).
Proof.
  intros Hink. unfold extract_info_get.
  rewrite decide_False by (rewrite key_empty_iff; congruence).
  split_and!.
  - intros Hstr. by rewrite decide_True.
  - intros Hstr Hnone. rewrite decide_False by done.
    assert (filter (row_matches (Py.lower (Py.strip (default "" arg))))
              df_disease = []) as ->; [|done].
    apply elem_of_nil_inv. intros row [Hrow Hin]%list_elem_of_filter.
    rewrite Forall_forall in Hnone. by apply (Hnone row).
  - intros error. case_decide as Hstr; [done|].
    destruct (filter _ df_disease) as [|row rows] eqn:Hfilter.
    + intros _. split; [done|]. apply Forall_forall. intros row Hin Hrow.
      assert (row ∈ filter (row_matches (Py.lower (Py.strip (default "" arg)))) df_disease)
        as Hin' by by apply list_elem_of_filter.
      rewrite Hfilter in Hin'. by apply elem_of_nil in Hin'.
    + destruct (extract_medications _ _); cbn [mbind result_bind]; [|done].
      by destruct (extract_tests _ _ _ _).
Qed.

Lemma extract_info_get_404_iff_no_row_witness :
  extract_info_get (labeler_of []) word_matcher
    [mkRow (Some "Asthma") (Some "Salbutamol inhaler."); mkRow None (Some "orphan note")]
    [Some "CBC"] [Some "Xray"] (Some "  Diabetes ")
  = Ok (ErrorResponse "Disease 'diabetes' not found" 404)
  ∧ extract_info_get (labeler_of []) word_matcher
      [mkRow None (Some "orphan note"); mkRow None None]
      [Some "CBC"] [Some "Xray"] (Some "  Diabetes ")
    = Raise AttributeError
  ∧ extract_info_get (labeler_of []) word_matcher [] [Some "CBC"] [Some "Xray"]
      (Some "  Diabetes ")
    = Ok (ErrorResponse "Disease 'diabetes' not found" 404).
Proof.
  split_and!.
  - refine (proj1 (proj2 (extract_info_get_404_iff_no_row (labeler_of []) word_matcher
                     [mkRow (Some "Asthma") (Some "Salbutamol inhaler.");
                      mkRow None (Some "orphan note")]
                     [Some "CBC"] [Some "Xray"] (Some "  Diabetes ") eq_refl)) _ _).
    + intros [_ Hnull]. by apply Forall_cons in Hnull as [Hnull _].
    + repeat constructor; by intros Hrow.
  - refine (proj1 (extract_info_get_404_iff_no_row (labeler_of []) word_matcher
                     [mkRow None (Some "orphan note"); mkRow None None]
                     [Some "CBC"] [Some "Xray"] (Some "  Diabetes ") eq_refl) _).
    split; [done|]. by repeat constructor.
  - refine (proj1 (proj2 (extract_info_get_404_iff_no_row (labeler_of []) word_matcher
                     [] [Some "CBC"] [Some "Xray"] (Some "  Diabetes ") eq_refl)) _ _).
    + by intros [Hne _].
    + constructor.
Defined.

(** X21. The note of the first row of the table whose disease is the key is
    the one the view works on: the rows before it that do not match and all
    the rows after it, matching or not, make no difference. *)
Theorem extract_info_get_first_row
    (nlp_med7 : string → list Span)
    (phrase_matcher : list (string * list string) → string → list (string * string))
    (pre post : list DiseaseRow) (row : DiseaseRow)
    (pathology_column radiology_column : list (option string)) (arg : option string) :
  Forall (λ r, ¬ row_matches (Py.lower (Py.strip (default "" arg))) r) pre →
  row_matches (Py.lower (Py.strip (default "" arg))) row →
  extract_info_get nlp_med7 phrase_matcher (pre ++ row :: post)
    pathology_column radiology_column arg
  = extract_info_get nlp_med7 phrase_matcher [row] pathology_column radiology_column arg.
Proof.
  intros Hpre Hrow. unfold extract_info_get. case_decide; [done|].
  assert (∀ df, row ∈ df → ¬ no_str_accessor df) as Htext.
  { intros df Hin [_ Hnull]. rewrite Forall_forall in Hnull.
    unfold row_matches in Hrow. by rewrite (Hnull row Hin) in Hrow. }
  rewrite !decide_False by (apply Htext; set_solver).
  rewrite (filter_first_match _ pre row post Hpre Hrow).
  by rewrite (filter_first_match _ [] row [] (Forall_nil_2 _) Hrow).
Qed.

Lemma extract_info_get_first_row_witness :
  extract_info_get (labeler_of [mkSpan "DRUG" "Metformin" 0 1]) word_matcher
    ([mkRow (Some "Asthma") (Some "Salbutamol")]
     ++ mkRow (Some "DIABETES") (Some "Metformin and CBC")
        :: [mkRow (Some "diabetes") (Some "Insulin and Xray")])
    [Some "CBC"] [Some "Xray"] (Some "Diabetes")
  = Ok (ResultResponse "diabetes" (Some [ {[ "drug" := "Metformin" ]} ]) (Some ["CBC"]) None).
Proof.
  etrans.
  - refine (extract_info_get_first_row (labeler_of [mkSpan "DRUG" "Metformin" 0 1])
              word_matcher [mkRow (Some "Asthma") (Some "Salbutamol")]
              [mkRow (Some "diabetes") (Some "Insulin and Xray")]
              (mkRow (Some "DIABETES") (Some "Metformin and CBC"))
              [Some "CBC"] [Some "Xray"] (Some "Diabetes") _ _).
    + repeat constructor. by intros [=].
    + reflexivity.
  - vm_compute. reflexivity.
Defined.

(** X22. A result the view answers with carries the parameter stripped and
    in lower case as its [disease_name], which is not empty, and none of its
    three collections is an empty list: each is null or has an element. *)
Theorem extract_info_get_result_shape
    (nlp_med7 : string → list Span)
    (phrase_matcher : list (string * list string) → string → list (string * string))
    (df_disease : list DiseaseRow) (pathology_column radiology_column : list (option string))
    (arg : option string) (disease_name : string)
    (medications : option (list (gmap string string)))
    (pathology_tests radiology_tests : option (list string)) :
  extract_info_get nlp_med7 phrase_matcher df_disease pathology_column radiology_column arg
  = Ok (ResultResponse disease_name medications pathology_tests radiology_tests) →
  disease_name = Py.lower (Py.strip (default "" arg))
  ∧ disease_name ≠ ""
  ∧ medications ≠ Some [] ∧ pathology_tests ≠ Some [] ∧ radiology_tests ≠ Some [].
Proof.
  unfold extract_info_get. case_decide as Hkey; [done|].
  case_decide as Hstr; [done|].
  destruct (filter _ df_disease) as [|row rows]; [done|].
  destruct (extract_medications _ _) as [meds|e] eqn:Hmeds; cbn [mbind result_bind]; [|done].
  unfold extract_tests. destruct (bucket _ _ _) as [patho radio].
  intros Hok; injection Hok as <- <- <- <-.
  split_and!; [done|done| | |].
  - by destruct (medications_of_returned _ _ Hmeds) as (? & _).
  - intros [Heq Hne]%or_None_Some. congruence.
  - intros [Heq Hne]%or_None_Some. congruence.
Qed.

Lemma extract_info_get_result_shape_witness :
  "diabetes" = Py.lower (Py.strip (default "" (Some " Diabetes")))
  ∧ "diabetes" ≠ ""
  ∧ Some [ ({[ "drug" := "Metformin" ]} : gmap string string) ] ≠ Some []
  ∧ Some ["CBC"] ≠ Some [] ∧ (None : option (list string)) ≠ Some [].
Proof.
  refine (extract_info_get_result_shape (labeler_of [mkSpan "DRUG" "Metformin" 0 1])
            word_matcher [mkRow (Some "DIABETES") (Some "Metformin and CBC")]
            [Some "CBC"] [Some "Xray"] (Some " Diabetes") _ _ _ _ _).
  vm_compute. reflexivity.
Defined.

(** ** The merger and the assembly together *)

(** X23. When the labeler yields a DRUG span and, right after it, one more
    span, the two come out as a single DRUG entity: the result is one record
    whose drug is the two texts around a space, and the label of the second
    span plays no part, so that a strength or a form that touches its drug
    ends in the drug name and not in a field. *)
Theorem extract_medications_adjacent_pair
    (text : string) (s n : Span) :
  label_ s = "DRUG" →
  start n = end_ s →
  Py.lower (Py.strip (merged_text_of s n)) ∉ INVALID_DRUGS →
  extract_medications (labeler_of [s; n]) text
  = Ok (Some [ {[ "drug" := Py.strip (merged_text_of s n) ]} ]).
Proof.
  intros Hlabel Hadj Hgood. unfold extract_medications, labeler_of, merged_text_of in *.
  rewrite merge_adjacent by done. rewrite Hlabel.
  unfold medications_of. rewrite assemble_cons, step_new_drug by done. done.
Qed.

Lemma extract_medications_adjacent_pair_witness :
  extract_medications
    (labeler_of [mkSpan "DRUG" "Metformin" 2 3; mkSpan "STRENGTH" "500mg" 3 4])
    "Patient prescribed Metformin 500mg"
  = Ok (Some [ {[ "drug" := "Metformin 500mg" ]} ]).
Proof.
  refine (extract_medications_adjacent_pair "Patient prescribed Metformin 500mg"
            (mkSpan "DRUG" "Metformin" 2 3) (mkSpan "STRENGTH" "500mg" 3 4)
            eq_refl eq_refl _).
  vm_compute. discriminate.
Defined.
